(** * Moab visualizer: state-to-scene transform and arm kinematics

    A shallow embedding of the numeric core of the Moab visualizer
    ([MoabVisualizer.tsx], [MoabModel.ts], [MoabRenderer.tsx]) together with
    the handful of three.js methods the renderer calls.

    Numbers.  A JavaScript [number] is embedded as an extended real: a finite
    real, one of the two infinities, or NaN.  The special values follow
    IEEE 754 (NaN is contagious, every comparison with NaN is false, the
    inverse trigonometric functions and the square root answer NaN outside
    their domain).  Rounding and overflow are not part of the model, and zero
    carries no sign: a zero divisor stands for +0, which is the only zero
    divisor the embedded code can produce (a square root or a product with a
    square root). *)

From Stdlib Require Import Reals Lra Lia.
From stdpp Require Import gmap strings.

Local Open Scope R_scope.

(** ** JavaScript numbers *)

Inductive number : Type :=
| Fin (r : R)
| PosInf
| NegInf
| NaN.

Definition Rltb (x y : R) : bool := if Rlt_dec x y then true else false.
Definition Rleb (x y : R) : bool := if Rle_dec x y then true else false.
Definition Reqb (x y : R) : bool := if Req_dec_T x y then true else false.

Definition infinity (positive : bool) : number :=
  if positive then PosInf else NegInf.

Definition num_neg (x : number) : number :=
  match x with
  | Fin r => Fin (- r)
  | PosInf => NegInf
  | NegInf => PosInf
  | NaN => NaN
  end.

Definition num_add (x y : number) : number :=
  match x, y with
  | NaN, _ | _, NaN => NaN
  | Fin a, Fin b => Fin (a + b)
  | PosInf, NegInf | NegInf, PosInf => NaN
  | PosInf, _ | _, PosInf => PosInf
  | NegInf, _ | _, NegInf => NegInf
  end.

Definition num_sub (x y : number) : number := num_add x (num_neg y).

Definition num_mul (x y : number) : number :=
  match x, y with
  | NaN, _ | _, NaN => NaN
  | Fin a, Fin b => Fin (a * b)
  | Fin a, PosInf | PosInf, Fin a =>
      if Reqb a 0 then NaN else infinity (Rltb 0 a)
  | Fin a, NegInf | NegInf, Fin a =>
      if Reqb a 0 then NaN else infinity (Rltb a 0)
  | PosInf, PosInf | NegInf, NegInf => PosInf
  | PosInf, NegInf | NegInf, PosInf => NegInf
  end.

Definition num_div (x y : number) : number :=
  match x, y with
  | NaN, _ | _, NaN => NaN
  | Fin a, Fin b =>
      if Reqb b 0
      then (if Reqb a 0 then NaN else infinity (Rltb 0 a))
      else Fin (a / b)
  | Fin _, (PosInf | NegInf) => Fin 0
  | (PosInf | NegInf), (PosInf | NegInf) => NaN
  | PosInf, Fin b => infinity (Rleb 0 b)
  | NegInf, Fin b => infinity (Rltb b 0)
  end.

(** [x < y]; false as soon as one side is NaN. *)
Definition num_lt (x y : number) : bool :=
  match x, y with
  | NaN, _ | _, NaN => false
  | Fin a, Fin b => Rltb a b
  | _, NegInf | PosInf, _ => false
  | NegInf, _ | _, PosInf => true
  end.

Definition num_gt (x y : number) : bool := num_lt y x.

(** [x === y] on two numbers. *)
Definition num_eq (x y : number) : bool :=
  match x, y with
  | Fin a, Fin b => Reqb a b
  | PosInf, PosInf | NegInf, NegInf => true
  | _, _ => false
  end.

Definition num_le (x y : number) : bool := num_lt x y || num_eq x y.
Definition num_ge (x y : number) : bool := num_le y x.

(** [x !== y] on two numbers. *)
Definition num_neq (x y : number) : bool := negb (num_eq x y).

(** ToBoolean on a number: 0 and NaN are falsy. *)
Definition truthy (x : number) : bool :=
  match x with
  | Fin r => negb (Reqb r 0)
  | NaN => false
  | _ => true
  end.

(** [x || y] on numbers. *)
Definition or_else (x y : number) : number := if truthy x then x else y.

Declare Scope js_scope.
Delimit Scope js_scope with js.
Bind Scope js_scope with number.
Infix "+" := num_add : js_scope.
Infix "-" := num_sub : js_scope.
Infix "*" := num_mul : js_scope.
Infix "/" := num_div : js_scope.
Notation "- x" := (num_neg x) : js_scope.
Infix "<" := num_lt : js_scope.
Infix ">" := num_gt : js_scope.
Infix ">=" := num_ge : js_scope.
Infix "<=" := num_le : js_scope.
Infix "===" := num_eq (at level 70, no associativity) : js_scope.
Infix "!==" := num_neq (at level 70, no associativity) : js_scope.

(** The part of the [Math] object the renderer uses. *)
Module Math.

Definition PI : number := Fin Rtrigo1.PI.

Definition sqrt (x : number) : number :=
  match x with
  | Fin r => if Rltb r 0 then NaN else Fin (R_sqrt.sqrt r)
  | PosInf => PosInf
  | NegInf | NaN => NaN
  end.

(** [Math.pow(x, n)] for a literal natural exponent [n], by repeated
    multiplication; [Math.pow(x, 0)] is 1 for every [x], NaN included. *)
Fixpoint pow (x : number) (n : nat) : number :=
  match n with
  | O => Fin 1
  | S O => x
  | S m => (x * pow x m)%js
  end.

Definition asin (x : number) : number :=
  match x with
  | Fin r => if Rleb (-1) r && Rleb r 1 then Fin (Ratan.asin r) else NaN
  | _ => NaN
  end.

Definition acos (x : number) : number :=
  match x with
  | Fin r => if Rleb (-1) r && Rleb r 1 then Fin (Ratan.acos r) else NaN
  | _ => NaN
  end.

Definition sin (x : number) : number :=
  match x with Fin r => Fin (Rtrigo_def.sin r) | _ => NaN end.

Definition cos (x : number) : number :=
  match x with Fin r => Fin (Rtrigo_def.cos r) | _ => NaN end.

Definition abs (x : number) : number :=
  match x with
  | Fin r => Fin (Rabs r)
  | PosInf | NegInf => PosInf
  | NaN => NaN
  end.

Definition max (x y : number) : number :=
  match x, y with
  | NaN, _ | _, NaN => NaN
  | _, _ => if (x < y)%js then y else x
  end.

End Math.

(** ** MoabRenderer.tsx: arm kinematics *)

Record ArmAngles : Type := mkArmAngles {
  theta_link : number;
  theta_servo : number;
}.

Local Open Scope js_scope.

(** [_anglesForArmJoints(v, h)]. *)
Definition _anglesForArmJoints (v h : number) : ArmAngles :=
  let a := Fin 0.055 in
  let b := Fin 0.055 in
  let c := Math.sqrt (Math.pow v 2 + Math.pow h 2) in
  let theta_hc := Math.asin (v / c) in
  let theta_link :=
    Math.acos ((Math.pow a 2 + Math.pow b 2 - Math.pow c 2) / (Fin 2 * a * b)) in
  let theta_ac :=
    Math.acos ((Math.pow a 2 + Math.pow c 2 - Math.pow b 2) / (Fin 2 * a * c)) in
  let theta_servo :=
    if h >= Fin 0 then theta_hc - theta_ac else Math.PI - (theta_hc + theta_ac) in
  {| theta_link := Math.PI + theta_link;
     theta_servo := Math.PI * Fin 2 - theta_servo |}.

(** ** three.js

    The renderer delegates its vector and quaternion algebra to three.js,
    which is a dependency and not part of the repository.  The methods below
    are embedded from the library's sources (the releases that have
    [Quaternion.invert], r123 onwards). *)

Module Vector3.

Record t : Type := mk { x : number; y : number; z : number }.

Definition add (v w : t) : t :=
  mk (x v + x w) (y v + y w) (z v + z w).

Definition dot (v w : t) : number :=
  x v * x w + y v * y w + z v * z w.

Definition multiplyScalar (v : t) (scalar : number) : t :=
  mk (x v * scalar) (y v * scalar) (z v * scalar).

Definition divideScalar (v : t) (scalar : number) : t :=
  multiplyScalar v (Fin 1 / scalar).

Definition length (v : t) : number :=
  Math.sqrt (x v * x v + y v * y v + z v * z v).

(** [return this.divideScalar( this.length() || 1 )]. *)
Definition normalize (v : t) : t :=
  divideScalar v (or_else (length v) (Fin 1)).

End Vector3.

Module Quaternion.

Record t : Type := mk { x : number; y : number; z : number; w : number }.

(** [new THREE.Quaternion()]. *)
Definition identity : t := mk (Fin 0) (Fin 0) (Fin 0) (Fin 1).

Definition length (q : t) : number :=
  Math.sqrt (x q * x q + y q * y q + z q * z q + w q * w q).

Definition normalize (q : t) : t :=
  let l := length q in
  if l === Fin 0 then mk (Fin 0) (Fin 0) (Fin 0) (Fin 1)
  else
    let l := Fin 1 / l in
    mk (x q * l) (y q * l) (z q * l) (w q * l).

Definition conjugate (q : t) : t :=
  mk (x q * Fin (-1)) (y q * Fin (-1)) (z q * Fin (-1)) (w q).

(** "quaternion is assumed to have unit length": [return this.conjugate()]. *)
Definition invert (q : t) : t := conjugate q.

Definition multiplyQuaternions (a b : t) : t :=
  let qax := x a in let qay := y a in let qaz := z a in let qaw := w a in
  let qbx := x b in let qby := y b in let qbz := z b in let qbw := w b in
  mk (qax * qbw + qaw * qbx + qay * qbz - qaz * qby)
     (qay * qbw + qaw * qby + qaz * qbx - qax * qbz)
     (qaz * qbw + qaw * qbz + qax * qby - qay * qbx)
     (qaw * qbw - qax * qbx - qay * qby - qaz * qbz).

Definition multiply (q p : t) : t := multiplyQuaternions q p.

Definition setFromAxisAngle (axis : Vector3.t) (angle : number) : t :=
  let halfAngle := angle / Fin 2 in
  let s := Math.sin halfAngle in
  mk (Vector3.x axis * s) (Vector3.y axis * s) (Vector3.z axis * s)
     (Math.cos halfAngle).

(** [setFromUnitVectors( vFrom, vTo )], "assumes direction vectors vFrom and
    vTo are normalized".  The tolerance [EPS] below which the two vectors
    count as opposite is a constant of the library (0.000001 in the older
    releases, [Number.EPSILON] in the newer ones) and is taken as an
    argument. *)
Definition setFromUnitVectors (EPS : number) (vFrom vTo : Vector3.t) : t :=
  let r := Vector3.dot vFrom vTo + Fin 1 in
  normalize
    (if r < EPS then
       let r := Fin 0 in
       if Math.abs (Vector3.x vFrom) > Math.abs (Vector3.z vFrom)
       then mk (- Vector3.y vFrom) (Vector3.x vFrom) (Fin 0) r
       else mk (Fin 0) (- Vector3.z vFrom) (Vector3.y vFrom) r
     else
       mk (Vector3.y vFrom * Vector3.z vTo - Vector3.z vFrom * Vector3.y vTo)
          (Vector3.z vFrom * Vector3.x vTo - Vector3.x vFrom * Vector3.z vTo)
          (Vector3.x vFrom * Vector3.y vTo - Vector3.y vFrom * Vector3.x vTo)
          r).

Definition defined (q : t) : Prop :=
  x q <> NaN /\ y q <> NaN /\ z q <> NaN /\ w q <> NaN.

End Quaternion.

(** [Vector3.applyQuaternion( q )]: the vector conjugated by [q]. *)
Definition applyQuaternion (v : Vector3.t) (q : Quaternion.t) : Vector3.t :=
  let x := Vector3.x v in let y := Vector3.y v in let z := Vector3.z v in
  let qx := Quaternion.x q in let qy := Quaternion.y q in
  let qz := Quaternion.z q in let qw := Quaternion.w q in
  let ix := qw * x + qy * z - qz * y in
  let iy := qw * y + qz * x - qx * z in
  let iz := qw * z + qx * y - qy * x in
  let iw := - qx * x - qy * y - qz * z in
  Vector3.mk (ix * qw + iw * - qx + iy * - qz - iz * - qy)
             (iy * qw + iw * - qy + iz * - qx - ix * - qz)
             (iz * qw + iw * - qz + ix * - qy - iy * - qx).

(** The scene-graph objects the renderer mutates, reduced to the properties
    it writes. *)
Record Object3D : Type := mkObject3D {
  position : Vector3.t;
  quaternion : Quaternion.t;
  scale : Vector3.t;
  visible : bool;
}.

Definition set_position (o : Object3D) (p : Vector3.t) : Object3D :=
  mkObject3D p (quaternion o) (scale o) (visible o).
Definition set_quaternion (o : Object3D) (q : Quaternion.t) : Object3D :=
  mkObject3D (position o) q (scale o) (visible o).
Definition set_scale (o : Object3D) (s : Vector3.t) : Object3D :=
  mkObject3D (position o) (quaternion o) s (visible o).
Definition set_visible (o : Object3D) (b : bool) : Object3D :=
  mkObject3D (position o) (quaternion o) (scale o) b.

(** [Object3D.setRotationFromQuaternion], [setRotationFromAxisAngle] and
    [rotateOnAxis] (behind [rotateX] and [rotateY]). *)
Definition setRotationFromQuaternion (o : Object3D) (q : Quaternion.t) : Object3D :=
  set_quaternion o q.
Definition setRotationFromAxisAngle (o : Object3D) (axis : Vector3.t) (angle : number)
  : Object3D :=
  set_quaternion o (Quaternion.setFromAxisAngle axis angle).
Definition rotateOnAxis (o : Object3D) (axis : Vector3.t) (angle : number) : Object3D :=
  set_quaternion o
    (Quaternion.multiply (quaternion o) (Quaternion.setFromAxisAngle axis angle)).
Definition rotateX (o : Object3D) (angle : number) : Object3D :=
  rotateOnAxis o (Vector3.mk (Fin 1) (Fin 0) (Fin 0)) angle.
Definition rotateY (o : Object3D) (angle : number) : Object3D :=
  rotateOnAxis o (Vector3.mk (Fin 0) (Fin 1) (Fin 0)) angle.

(** [THREE.ArrowHelper]: an object with a line and a cone as children. *)
Record ArrowHelper : Type := mkArrowHelper {
  arrow : Object3D;
  line_scale : Vector3.t;
  cone_scale : Vector3.t;
  cone_position_y : number;
}.

Definition arrow_with (a : ArrowHelper) (o : Object3D) : ArrowHelper :=
  mkArrowHelper o (line_scale a) (cone_scale a) (cone_position_y a).

(** [ArrowHelper.setDirection( dir )], "dir is assumed to be normalized". *)
Definition setDirection (a : ArrowHelper) (dir : Vector3.t) : ArrowHelper :=
  arrow_with a
    (set_quaternion (arrow a)
       (if Vector3.y dir > Fin 0.99999 then
          Quaternion.mk (Fin 0) (Fin 0) (Fin 0) (Fin 1)
        else if Vector3.y dir < - Fin 0.99999 then
          Quaternion.mk (Fin 1) (Fin 0) (Fin 0) (Fin 0)
        else
          let _axis :=
            Vector3.normalize (Vector3.mk (Vector3.z dir) (Fin 0) (- Vector3.x dir)) in
          let radians := Math.acos (Vector3.y dir) in
          Quaternion.setFromAxisAngle _axis radians)).

(** [ArrowHelper.setLength( length, headLength, headWidth )]. *)
Definition setLength (a : ArrowHelper) (length headLength headWidth : number)
  : ArrowHelper :=
  mkArrowHelper (arrow a)
    (Vector3.mk (Fin 1) (Math.max (Fin 0.0001) (length - headLength)) (Fin 1))
    (Vector3.mk headWidth headLength headWidth)
    length.

(** ** MoabModel.ts *)

Definition DefaultBallRadius : number := Fin 0.020.
Definition DefaultPlateZ : number := Fin 0.042.
Definition PlateOriginToSurfaceOffset : number := Fin 0.009.

(** [ModelState].  The five estimate fields are copied from the message
    without a default, so they may hold [undefined] ([None]); so may
    [reward]. *)
Record ModelState : Type := mkModelState {
  timeDelta : number;
  ballRadius : number;
  ballPosX : number;
  ballPosY : number;
  ballPosZ : number;
  ballVelX : number;
  ballVelY : number;
  ballVelZ : number;
  ballOrientX : number;
  ballOrientY : number;
  ballOrientZ : number;
  ballOrientW : number;
  estimatedPosX : option number;
  estimatedPosY : option number;
  estimatedRadius : option number;
  estimatedVelX : option number;
  estimatedVelY : option number;
  targetPosX : number;
  targetPosY : number;
  obstaclePosX : number;
  obstaclePosY : number;
  obstacleRadius : number;
  platePosX : number;
  platePosY : number;
  platePosZ : number;
  plateNorX : number;
  plateNorY : number;
  plateNorZ : number;
  pitch : number;
  roll : number;
  terminal : bool;
  reward : option number;
}.

(** ** MoabRenderer.tsx: the render pass *)

(** An arm assembly: the group and its two named children. *)
Record ArmGroup : Type := mkArmGroup {
  group : Object3D;
  PLATE_ARM : option Object3D;
  SERVO_ARM : option Object3D;
}.

(** The fields of the [MoabRenderer] component that the render pass reads or
    writes.  The meshes built in [componentDidMount] are always there; the
    parts looked up in the loaded asset are optional. *)
Record MoabRenderer : Type := mkMoabRenderer {
  _ball : Object3D;
  _target : Object3D;
  _obstacle : Object3D;
  _plate : option Object3D;
  _joystick : option Object3D;
  _estimatedPos : Object3D;
  _estimatedVel : ArrowHelper;
  _armLeft : option ArmGroup;
  _armCenter : option ArmGroup;
  _armRight : option ArmGroup;
  _plateOrig : Vector3.t;
  _plateSurfaceOrig : Vector3.t;
}.

Definition xAxis : Vector3.t := Vector3.mk (Fin 1) (Fin 0) (Fin 0).
Definition zAxis : Vector3.t := Vector3.mk (Fin 0) (Fin 0) (Fin 1).

(** [a || b] where [a] may be [undefined]. *)
Definition or_default (a : option number) (b : number) : number :=
  match a with
  | Some x => or_else x b
  | None => b
  end.

(** [_orientArm(armGroup, platePos, plateQ)]. *)
Definition _orientArm (armGroup : ArmGroup) (platePos : Vector3.t) (plateQ : Quaternion.t)
  : ArmGroup :=
  let armQ := quaternion (group armGroup) in
  match PLATE_ARM armGroup, SERVO_ARM armGroup with
  | Some plateArm, Some servoArm =>
      let jointPosC :=
        Vector3.add
          (applyQuaternion
             (applyQuaternion
                (Vector3.mk (Fin 0) (Vector3.y platePos + Fin 0.1) (Fin 0)) armQ)
             plateQ)
          platePos in
      let v := Vector3.z jointPosC - Vector3.z (position (group armGroup)) in
      let h := Vector3.y jointPosC - Vector3.y (position (group armGroup)) in
      let angles := _anglesForArmJoints v h in
      mkArmGroup (group armGroup)
        (Some (setRotationFromAxisAngle plateArm xAxis (theta_link angles)))
        (Some (setRotationFromAxisAngle servoArm xAxis (theta_servo angles)))
  | _, _ => armGroup
  end.

Section Render.

(** The tolerance of [Quaternion.setFromUnitVectors]. *)
Variable EPS : number.

Definition platePos_of (this : MoabRenderer) (moabState : ModelState) : Vector3.t :=
  Vector3.add
    (Vector3.mk (platePosX moabState) (platePosY moabState) (platePosZ moabState))
    (_plateOrig this).

Definition plateQ_of (moabState : ModelState) : Quaternion.t :=
  let plateNor :=
    Vector3.mk (plateNorX moabState) (plateNorY moabState) (plateNorZ moabState) in
  Quaternion.setFromUnitVectors EPS zAxis plateNor.

Definition ballRot_of (moabState : ModelState) : Quaternion.t :=
  Quaternion.invert
    (Quaternion.mk (ballOrientX moabState) (ballOrientY moabState)
       (ballOrientZ moabState) (ballOrientW moabState)).

Definition ballRingPos_of (this : MoabRenderer) (moabState : ModelState) : Vector3.t :=
  Vector3.add
    (Vector3.mk
       (or_default (estimatedPosX moabState) (ballPosX moabState))
       (or_default (estimatedPosY moabState) (ballPosY moabState))
       (platePosZ moabState))
    (_plateOrig this).

(** [_render3DScene()], from the point where the model state is read; the
    background colour, the constant rotation of the target cone and the
    final draw call are left out. *)
Definition _render3DScene (this : MoabRenderer) (moabState : ModelState)
  : MoabRenderer :=
  let platePos := platePos_of this moabState in
  let plateQ := plateQ_of moabState in
  let ballPos :=
    Vector3.add
      (Vector3.mk (ballPosX moabState) (ballPosY moabState) (ballPosZ moabState))
      (_plateSurfaceOrig this) in
  let targetPos :=
    Vector3.mk (targetPosX moabState) (targetPosY moabState)
      PlateOriginToSurfaceOffset in
  let obstaclePos :=
    Vector3.mk (obstaclePosX moabState) (obstaclePosY moabState) (Fin 0.0) in
  let ballRot := ballRot_of moabState in
  let ballRingPos := ballRingPos_of this moabState in
  let joystick :=
    match _joystick this with
    | Some joystick =>
        let xAngle := (pitch moabState * Math.PI) / Fin 12 in
        let yAngle := (roll moabState * Math.PI) / Fin 12 in
        Some
          (rotateY
             (rotateX
                (setRotationFromAxisAngle joystick
                   (Vector3.mk (Fin 0) (Fin 0) (Fin 1)) (Fin 0))
                xAngle)
             yAngle)
    | None => None
    end in
  let ball :=
    let r := ballRadius moabState in
    setRotationFromQuaternion
      (set_position (set_scale (_ball this) (Vector3.mk r r r)) ballPos)
      ballRot in
  let target :=
    set_visible (set_position (_target this) targetPos)
      ((Vector3.x targetPos !== Fin 0) || (Vector3.y targetPos !== Fin 0)) in
  let obstacle :=
    let r := obstacleRadius moabState in
    set_visible
      (set_position (set_scale (_obstacle this) (Vector3.mk r r r)) obstaclePos)
      (obstacleRadius moabState > Fin 0.0) in
  let estimatedPos :=
    match estimatedPosX moabState, estimatedPosY moabState,
          estimatedRadius moabState with
    | Some _, Some _, Some r =>
        set_visible
          (setRotationFromQuaternion
             (set_position (set_scale (_estimatedPos this) (Vector3.mk r r r))
                ballRingPos)
             plateQ)
          true
    | _, _, _ => set_visible (_estimatedPos this) false
    end in
  let estimatedVelArrow :=
    match estimatedVelX moabState, estimatedVelY moabState with
    | Some velX, Some velY =>
        let estimatedVel := Vector3.mk velX velY (Fin 0) in
        let length := Vector3.length estimatedVel in
        let dir := Vector3.normalize estimatedVel in
        let a1 :=
          arrow_with (_estimatedVel this)
            (set_position (arrow (_estimatedVel this)) ballRingPos) in
        let a2 := setDirection a1 dir in
        let a3 := setLength a2 length (Fin 0.003) (Fin 0.002) in
        arrow_with a3 (set_visible (arrow a3) true)
    | _, _ =>
        arrow_with (_estimatedVel this)
          (set_visible (arrow (_estimatedVel this)) false)
    end in
  let plate :=
    match _plate this with
    | Some plate => Some (setRotationFromQuaternion (set_position plate platePos) plateQ)
    | None => None
    end in
  let orient (arm : option ArmGroup) :=
    match arm with
    | Some armGroup => Some (_orientArm armGroup platePos plateQ)
    | None => None
    end in
  {| _ball := ball;
     _target := target;
     _obstacle := obstacle;
     _plate := plate;
     _joystick := joystick;
     _estimatedPos := estimatedPos;
     _estimatedVel := estimatedVelArrow;
     _armLeft := orient (_armLeft this);
     _armCenter := orient (_armCenter this);
     _armRight := orient (_armRight this);
     _plateOrig := _plateOrig this;
     _plateSurfaceOrig := _plateSurfaceOrig this |}.

End Render.

(** ** MoabVisualizer.tsx: building the model state from a message *)

(** The values [JSON.parse] produces.  A key that is absent from an object
    reads as [undefined], which is [None] at the lookup. *)
#[local] Unset Elimination Schemes.
Inductive json : Type :=
| JNull
| JBool (b : bool)
| JNumber (x : number)
| JString (s : string)
| JArray (items : list json)
| JObject (members : list (string * json)).
#[local] Set Elimination Schemes.

(** [JSON.parse] has no syntax for NaN: the numbers of a parsed state are
    finite or, for a literal out of range, infinite. *)
Definition parsed (state : gmap string json) : Prop :=
  forall key, state !! key <> Some (JNumber NaN).

Definition isUndefined (v : option json) : bool :=
  match v with None => true | Some _ => false end.

(** [v ?? d]: [d] when [v] is [undefined] or [null]. *)
Definition nullish (v : option json) (d : json) : json :=
  match v with
  | None | Some JNull => d
  | Some x => x
  end.

Infix "??" := nullish (at level 75, no associativity) : js_scope.

(** [!!v]. *)
Definition toBoolean (v : option json) : bool :=
  match v with
  | None | Some JNull => false
  | Some (JBool b) => b
  | Some (JNumber x) => truthy x
  | Some (JString s) => match s with EmptyString => false | String _ _ => true end
  | Some (JArray _) | Some (JObject _) => true
  end.

(** The model state is declared with fields of type [number].  A value that
    is not a number (respectively not a number or [undefined] for the fields
    without default) falls outside the declared type; for such a message the
    embedding answers [None]. *)
Definition number_of (v : json) : option number :=
  match v with JNumber x => Some x | _ => None end.

Definition optional_number_of (v : option json) : option (option number) :=
  match v with
  | None => Some None
  | Some (JNumber x) => Some (Some x)
  | Some _ => None
  end.

(** The pattern of the "Handle legacy parameters" block,
    [let x = state[current]; if (x === undefined) { x = state[legacy]; }]. *)
Definition legacy_alias (state : gmap string json) (current legacy : string)
  : option json :=
  let x := state !! current in
  if isUndefined x then state !! legacy else x.

(** [_receiveMessage], from [const state = message.state] on, that is for a
    message that parsed and passed the version and type checks; the result is
    the [model.state] handed to [setState]. *)
Definition _receiveMessage (state : gmap string json) : option ModelState :=
  ballRadius ← number_of (state !! "ball_radius" ?? JNumber DefaultBallRadius);
  let roll := legacy_alias state "roll" "tilt_x" in
  let pitch := legacy_alias state "pitch" "tilt_y" in
  let obstaclePosX := legacy_alias state "obstacle_x" "obstacle_pos_x" in
  let obstaclePosY := legacy_alias state "obstacle_y" "obstacle_pos_y" in
  let platePosX := legacy_alias state "plate_x" "plate_pos_x" in
  let platePosY := legacy_alias state "plate_y" "plate_pos_y" in
  let platePosZ := legacy_alias state "plate_z" "plate_pos_z" in
  let targetPosX := legacy_alias state "target_x" "target_pos_x" in
  let targetPosY := legacy_alias state "target_y" "target_pos_y" in
  timeDelta' ← number_of (state !! "time_delta" ?? JNumber (Fin 0.02));
  ballPosX' ← number_of (state !! "ball_x" ?? JNumber (Fin 0.0));
  ballPosY' ← number_of (state !! "ball_y" ?? JNumber (Fin 0.0));
  ballPosZ' ← number_of (state !! "ball_z" ??
                 JNumber (PlateOriginToSurfaceOffset + DefaultPlateZ + ballRadius));
  ballVelX' ← number_of (state !! "ball_vel_x" ?? JNumber (Fin 0.0));
  ballVelY' ← number_of (state !! "ball_vel_y" ?? JNumber (Fin 0.0));
  ballVelZ' ← number_of (state !! "ball_vel_z" ?? JNumber (Fin 0.0));
  ballOrientX' ← number_of (state !! "ball_qat_x" ?? JNumber (Fin 0.0));
  ballOrientY' ← number_of (state !! "ball_qat_y" ?? JNumber (Fin 0.0));
  ballOrientZ' ← number_of (state !! "ball_qat_z" ?? JNumber (Fin 0.0));
  ballOrientW' ← number_of (state !! "ball_qat_w" ?? JNumber (Fin 1.0));
  estimatedPosX' ← optional_number_of (state !! "estimated_x");
  estimatedPosY' ← optional_number_of (state !! "estimated_y");
  estimatedRadius' ← optional_number_of (state !! "estimated_radius");
  estimatedVelX' ← optional_number_of (state !! "estimated_vel_x");
  estimatedVelY' ← optional_number_of (state !! "estimated_vel_y");
  targetPosX' ← number_of (targetPosX ?? JNumber (Fin 0.0));
  targetPosY' ← number_of (targetPosY ?? JNumber (Fin 0.0));
  obstaclePosX' ← number_of (obstaclePosX ?? JNumber (Fin 0.03));
  obstaclePosY' ← number_of (obstaclePosY ?? JNumber (Fin 0.03));
  obstacleRadius' ← number_of (state !! "obstacle_radius" ?? JNumber (Fin 0.0));
  platePosX' ← number_of (platePosX ?? JNumber (Fin 0.0));
  platePosY' ← number_of (platePosY ?? JNumber (Fin 0.0));
  platePosZ' ← number_of (platePosZ ?? JNumber DefaultPlateZ);
  plateNorX' ← number_of (state !! "plate_nor_x" ?? JNumber (Fin 0.0));
  plateNorY' ← number_of (state !! "plate_nor_y" ?? JNumber (Fin 0.0));
  plateNorZ' ← number_of (state !! "plate_nor_z" ?? JNumber (Fin 1.0));
  roll' ← number_of (roll ?? JNumber (Fin 0.0));
  pitch' ← number_of (pitch ?? JNumber (Fin 0.0));
  reward' ← optional_number_of (state !! "reward");
  Some {|
    timeDelta := timeDelta';
    ballRadius := ballRadius;
    ballPosX := ballPosX';
    ballPosY := ballPosY';
    ballPosZ := ballPosZ';
    ballVelX := ballVelX';
    ballVelY := ballVelY';
    ballVelZ := ballVelZ';
    ballOrientX := ballOrientX';
    ballOrientY := ballOrientY';
    ballOrientZ := ballOrientZ';
    ballOrientW := ballOrientW';
    estimatedPosX := estimatedPosX';
    estimatedPosY := estimatedPosY';
    estimatedRadius := estimatedRadius';
    estimatedVelX := estimatedVelX';
    estimatedVelY := estimatedVelY';
    targetPosX := targetPosX';
    targetPosY := targetPosY';
    obstaclePosX := obstaclePosX';
    obstaclePosY := obstaclePosY';
    obstacleRadius := obstacleRadius';
    platePosX := platePosX';
    platePosY := platePosY';
    platePosZ := platePosZ';
    plateNorX := plateNorX';
    plateNorY := plateNorY';
    plateNorZ := plateNorZ';
    pitch := pitch';
    roll := roll';
    terminal := toBoolean (state !! "terminal");
    reward := reward';
  |}.

Local Close Scope js_scope.

(** ** The component before the first message *)

(** The state the visualizer starts from (constructor of [MoabVisualizer]). *)
Definition initialState : ModelState := {|
  timeDelta := Fin 0.02;
  ballRadius := DefaultBallRadius;
  ballPosX := Fin 0;
  ballPosY := Fin 0;
  ballPosZ := (DefaultPlateZ + PlateOriginToSurfaceOffset + DefaultBallRadius)%js;
  ballVelX := Fin 0;
  ballVelY := Fin 0;
  ballVelZ := Fin 0;
  ballOrientX := Fin 0;
  ballOrientY := Fin 0;
  ballOrientZ := Fin 0;
  ballOrientW := Fin 1;
  estimatedPosX := Some (Fin 0);
  estimatedPosY := Some (Fin 0);
  estimatedRadius := Some DefaultBallRadius;
  estimatedVelX := Some (Fin 0);
  estimatedVelY := Some (Fin 0);
  targetPosX := Fin 0;
  targetPosY := Fin 0;
  obstaclePosX := Fin 0.03;
  obstaclePosY := Fin 0.03;
  obstacleRadius := Fin 0;
  platePosX := Fin 0;
  platePosY := Fin 0;
  platePosZ := DefaultPlateZ;
  plateNorX := Fin 0;
  plateNorY := Fin 0;
  plateNorZ := Fin 1;
  pitch := Fin 0;
  roll := Fin 0;
  terminal := false;
  reward := Some (Fin 0);
|}.

(** The model state after a message with the given state mapping; the
    previous state stays when the mapping is ill-typed. *)
Definition state_after (previous : ModelState) (state : gmap string json) : ModelState :=
  default previous (_receiveMessage state).

(** A freshly constructed [Object3D]. *)
Definition newObject3D : Object3D := {|
  position := Vector3.mk (Fin 0) (Fin 0) (Fin 0);
  quaternion := Quaternion.identity;
  scale := Vector3.mk (Fin 1) (Fin 1) (Fin 1);
  visible := true;
|}.

(** [new THREE.ArrowHelper(dir, origin, length, color)], head sizes at their
    defaults. *)
Definition newArrowHelper (dir origin : Vector3.t) (length : number) : ArrowHelper :=
  let headLength := (length * Fin 0.2)%js in
  let headWidth := (headLength * Fin 0.2)%js in
  setLength
    (setDirection
       (mkArrowHelper (set_position newObject3D origin)
          (Vector3.mk (Fin 1) (Fin 1) (Fin 1)) (Vector3.mk (Fin 1) (Fin 1) (Fin 1))
          (Fin 0))
       dir)
    length headLength headWidth.

(** The component once mounted, for an asset in which none of the plate,
    joystick and arm nodes was found: both plate origins are still the zero
    vector. *)
Definition mountedRenderer : MoabRenderer := {|
  _ball := newObject3D;
  _target := newObject3D;
  _obstacle := newObject3D;
  _plate := None;
  _joystick := None;
  _estimatedPos := newObject3D;
  _estimatedVel :=
    newArrowHelper (Vector3.mk (Fin 1) (Fin 0) (Fin 0))
      (Vector3.mk (Fin 0) (Fin 0) (Fin 0)) (Fin 0.1);
  _armLeft := None;
  _armCenter := None;
  _armRight := None;
  _plateOrig := Vector3.mk (Fin 0) (Fin 0) (Fin 0);
  _plateSurfaceOrig := Vector3.mk (Fin 0) (Fin 0) (Fin 0);
|}.

(** ** MoabRenderer.tsx: the calibration marker *)

(** The three ring arcs and meshes built in [componentDidMount]: for the loop
    index [i], the start angle and the length of the arc, and the angle and
    position of its mesh. *)
Definition markerArcStart (i : nat) : number :=
  (Math.PI / Fin 2 + (Fin (INR i) * Fin 2 * Math.PI) / Fin 3 - Math.PI / Fin 3)%js.

Definition markerArcLength : number := ((Fin 2 * Math.PI) / Fin 3)%js.

Definition markerMoveAngle (index : nat) : number :=
  (Math.PI / Fin 2 + (Fin (INR index) * Fin 2 * Math.PI) / Fin 3)%js.

Definition markerPos (index : nat) : Vector3.t :=
  let moveAngle := markerMoveAngle index in
  Vector3.mk (Fin 0.012 * Math.cos moveAngle)%js (Fin 0.012 * Math.sin moveAngle)%js
             (Fin 0.004).

(** [calibrationMarkerArcs.map((arc, index) => ...)] over the three arcs. *)
Definition _calibrationMarker : list Vector3.t := map markerPos [0; 1; 2]%nat.

(** ** MoabVisualizer.tsx: keyboard and gamepad input *)

(** A JavaScript array of numbers; [None] is a hole.  [a[i]] reads
    [undefined] from a hole and past the end; [a[i] = x] overwrites a slot in
    range and otherwise grows the array, leaving holes in between. *)
Definition array_get (a : list (option number)) (i : nat) : option number :=
  mjoin (a !! i).

Definition array_set (a : list (option number)) (i : nat) (x : number)
  : list (option number) :=
  if decide (i < length a)%nat then <[i := Some x]> a
  else a ++ replicate (i - length a) None ++ [Some x].

(** [x + y] where [y] may be [undefined]. *)
Definition add_undefined (x : number) (y : option number) : number :=
  match y with
  | Some y' => (x + y')%js
  | None => NaN
  end.

(** The part of a [Gamepad] that is read. *)
Record Gamepad : Type := mkGamepad {
  index : nat;
  axes : list number;
}.

(** The action of an [ActionUpdateMessage]. *)
Record ActionUpdate : Type := mkActionUpdate {
  input_roll : option number;
  input_pitch : option number;
  input_height_z : option number;
}.

(** The private fields of the [MoabVisualizer] component. *)
Record MoabVisualizer : Type := mkMoabVisualizer {
  _activeGamepadIndex : option nat;
  _keyboardInput : list (option number);
}.

(** The component as constructed. *)
Definition newMoabVisualizer : MoabVisualizer :=
  mkMoabVisualizer None [Some (Fin 0); Some (Fin 0); Some (Fin 0)].

Definition set_keyboardInput (this : MoabVisualizer) (i : nat) (x : number)
  : MoabVisualizer :=
  mkMoabVisualizer (_activeGamepadIndex this) (array_set (_keyboardInput this) i x).

(** [_handleKeyDown(evt)] on the key code of the event: the component
    afterwards, and [keyHandled] (the event is stopped exactly then). *)
Definition _handleKeyDown (this : MoabVisualizer) (code : string)
  : MoabVisualizer * bool :=
  let keyboardAxisAmount := Fin 0.2 in
  let keyboardUpDownAmount := Fin 1 in
  if String.eqb code "ArrowLeft" then
    (set_keyboardInput this 0 (- keyboardAxisAmount)%js, true)
  else if String.eqb code "ArrowRight" then
    (set_keyboardInput this 0 keyboardAxisAmount, true)
  else if String.eqb code "ArrowUp" then
    (set_keyboardInput this 1 (- keyboardAxisAmount)%js, true)
  else if String.eqb code "ArrowDown" then
    (set_keyboardInput this 1 keyboardAxisAmount, true)
  else if String.eqb code "BracketLeft" then
    (set_keyboardInput this 2 keyboardUpDownAmount, true)
  else if String.eqb code "BracketRight" then
    (set_keyboardInput this 2 (- keyboardUpDownAmount)%js, true)
  else (this, false).

(** [_handleGamepadConnected(evt)] and [_handleGamepadDisconnected(evt)] on
    the index of the event's gamepad. *)
Definition _handleGamepadConnected (this : MoabVisualizer) (gamepadIndex : nat)
  : MoabVisualizer :=
  mkMoabVisualizer (Some gamepadIndex) (_keyboardInput this).

Definition _handleGamepadDisconnected (this : MoabVisualizer) (gamepadIndex : nat)
  : MoabVisualizer :=
  match _activeGamepadIndex this with
  | Some active =>
      if Nat.eqb gamepadIndex active
      then mkMoabVisualizer None (_keyboardInput this)
      else this
  | None => this
  end.

(** [_applyNonlinearScaleToGamepadAxis(value)]. *)
Definition _applyNonlinearScaleToGamepadAxis (value : number) : number :=
  let absValue := Math.abs value in
  let scaledValue := (Math.pow absValue 4 * Fin 0.5)%js in
  if (value < Fin 0)%js then (- scaledValue)%js else scaledValue.

(** [_clearKeyboardInputs()]. *)
Definition _clearKeyboardInputs (this : MoabVisualizer) : MoabVisualizer :=
  mkMoabVisualizer (_activeGamepadIndex this) [Some (Fin 0); Some (Fin 0); Some (Fin 0)].

(** The first branch of [_sendActionFromInput]: the action built from the
    active gamepad, when there is one, it is connected and has at least two
    axes. *)
Definition gamepadAction (this : MoabVisualizer) (gamepads : list (option Gamepad))
  : option ActionUpdate :=
  match _activeGamepadIndex this with
  | Some active =>
      match mjoin (gamepads !! active) with
      | Some gamepad =>
          match axes gamepad with
          | axis0 :: axis1 :: rest =>
              Some {|
                input_roll :=
                  Some (add_undefined (_applyNonlinearScaleToGamepadAxis axis0)
                          (array_get (_keyboardInput this) 0));
                input_pitch :=
                  Some (add_undefined (_applyNonlinearScaleToGamepadAxis axis1)
                          (array_get (_keyboardInput this) 1));
                input_height_z :=
                  Some (add_undefined
                          (match rest with
                           | _ :: axis3 :: _ => (- axis3)%js
                           | _ => Fin 0
                           end)
                          (array_get (_keyboardInput this) 2));
              |}
          | _ => None
          end
      | None => None
      end
  | None => None
  end.

(** [_sendActionFromInput()] for the gamepads [navigator.getGamepads()]
    reports: the component afterwards and the action that is posted. *)
Definition _sendActionFromInput (this : MoabVisualizer) (gamepads : list (option Gamepad))
  : MoabVisualizer * ActionUpdate :=
  match gamepadAction this gamepads with
  | Some action => (_clearKeyboardInputs this, action)
  | None =>
      (_clearKeyboardInputs this,
       {| input_roll := array_get (_keyboardInput this) 0;
          input_pitch := array_get (_keyboardInput this) 1;
          input_height_z := array_get (_keyboardInput this) 2 |})
  end.


(** * Vocabulary of the properties *)

(** Link lengths of the solver (the constants [a] and [b] of the source). *)
Definition lower_arm : R := 0.055.
Definition upper_arm : R := 0.055.

Definition hypot (v h : R) : R := sqrt (v ^ 2 + h ^ 2).

(** A unit quaternion: finite components whose squares sum to 1. *)
Definition unit_quaternion (q : Quaternion.t) : Prop :=
  exists x y z w : R,
    q = Quaternion.mk (Fin x) (Fin y) (Fin z) (Fin w) /\
    x * x + y * y + z * z + w * w = 1.

Definition ballOrient (s : ModelState) : Quaternion.t :=
  Quaternion.mk (ballOrientX s) (ballOrientY s) (ballOrientZ s) (ballOrientW s).

Definition plateNor (s : ModelState) : Vector3.t :=
  Vector3.mk (plateNorX s) (plateNorY s) (plateNorZ s).

(** [u] is parallel to [n]: a non-zero multiple of it. *)
Definition parallel (u n : Vector3.t) : Prop :=
  exists k : R, k <> 0 /\ u = Vector3.multiplyScalar n (Fin k).

Definition zeroVector : Vector3.t := Vector3.mk (Fin 0) (Fin 0) (Fin 0).

(** The states the renderer is handed: the initial one, and every state built
    from the state mapping of a parsed message. *)
Definition processed (s : ModelState) : Prop :=
  s = initialState \/
  exists state : gmap string json, parsed state /\ _receiveMessage state = Some s.

(** The model-state fields that are read under a current name with a legacy
    alias: (current name, legacy name, resolved field). *)
Definition legacy_fields (s : ModelState) : list (string * string * number) :=
  [ ("roll", "tilt_x", roll s);
    ("pitch", "tilt_y", pitch s);
    ("obstacle_x", "obstacle_pos_x", obstaclePosX s);
    ("obstacle_y", "obstacle_pos_y", obstaclePosY s);
    ("plate_x", "plate_pos_x", platePosX s);
    ("plate_y", "plate_pos_y", platePosY s);
    ("plate_z", "plate_pos_z", platePosZ s);
    ("target_x", "target_pos_x", targetPosX s);
    ("target_y", "target_pos_y", targetPosY s) ]%string.

(** The events the input handlers of the visualizer react to, and the
    component after a sequence of them. *)
Inductive InputEvent : Type :=
| KeyDown (code : string)
| GamepadConnected (gamepadIndex : nat)
| GamepadDisconnected (gamepadIndex : nat)
| SendAction (gamepads : list (option Gamepad)).

Definition input_step (this : MoabVisualizer) (ev : InputEvent) : MoabVisualizer :=
  match ev with
  | KeyDown code => fst (_handleKeyDown this code)
  | GamepadConnected i => _handleGamepadConnected this i
  | GamepadDisconnected i => _handleGamepadDisconnected this i
  | SendAction gamepads => fst (_sendActionFromInput this gamepads)
  end.

Definition input_run (events : list InputEvent) : MoabVisualizer :=
  fold_left input_step events newMoabVisualizer.

(** The key codes [_handleKeyDown] reacts to. *)
Definition handled_codes : list string :=
  [ "ArrowLeft"; "ArrowRight"; "ArrowUp"; "ArrowDown"; "BracketLeft"; "BracketRight" ]%string.

(** The keyboard input holds three numbers: the two axis slots one of
    -0.2, 0, 0.2 and the height slot one of -1, 0, 1. *)
Definition keyboard_ok (kb : list (option number)) : Prop :=
  exists x y z : R,
    kb = [Some (Fin x); Some (Fin y); Some (Fin z)] /\
    (x = - 0.2 \/ x = 0 \/ x = 0.2) /\
    (y = - 0.2 \/ y = 0 \/ y = 0.2) /\
    (z = - 1 \/ z = 0 \/ z = 1).

(** No numeric field of the model state is NaN. *)
Definition nan_free (s : ModelState) : Prop :=
  Forall (fun x => x <> NaN)
    [ timeDelta s; ballRadius s; ballPosX s; ballPosY s; ballPosZ s;
      ballVelX s; ballVelY s; ballVelZ s;
      ballOrientX s; ballOrientY s; ballOrientZ s; ballOrientW s;
      targetPosX s; targetPosY s; obstaclePosX s; obstaclePosY s; obstacleRadius s;
      platePosX s; platePosY s; platePosZ s; plateNorX s; plateNorY s; plateNorZ s;
      pitch s; roll s ] /\
  Forall (fun x => x <> Some NaN)
    [ estimatedPosX s; estimatedPosY s; estimatedRadius s;
      estimatedVelX s; estimatedVelY s; reward s ].

(** The aliased fields with the default each takes when neither name gives a
    value: (current name, legacy name, default, resolved field). *)
Definition legacy_defaults (s : ModelState) : list (string * string * number * number) :=
  [ ("roll", "tilt_x", Fin 0.0, roll s);
    ("pitch", "tilt_y", Fin 0.0, pitch s);
    ("obstacle_x", "obstacle_pos_x", Fin 0.03, obstaclePosX s);
    ("obstacle_y", "obstacle_pos_y", Fin 0.03, obstaclePosY s);
    ("plate_x", "plate_pos_x", Fin 0.0, platePosX s);
    ("plate_y", "plate_pos_y", Fin 0.0, platePosY s);
    ("plate_z", "plate_pos_z", DefaultPlateZ, platePosZ s);
    ("target_x", "target_pos_x", Fin 0.0, targetPosX s);
    ("target_y", "target_pos_y", Fin 0.0, targetPosY s) ]%string.

(** The fields read under one name with a numeric default:
    (name, default, field). *)
Definition plain_defaults (s : ModelState) : list (string * number * number) :=
  [ ("ball_radius", DefaultBallRadius, ballRadius s);
    ("time_delta", Fin 0.02, timeDelta s);
    ("ball_x", Fin 0.0, ballPosX s);
    ("ball_y", Fin 0.0, ballPosY s);
    ("ball_vel_x", Fin 0.0, ballVelX s);
    ("ball_vel_y", Fin 0.0, ballVelY s);
    ("ball_vel_z", Fin 0.0, ballVelZ s);
    ("ball_qat_x", Fin 0.0, ballOrientX s);
    ("ball_qat_y", Fin 0.0, ballOrientY s);
    ("ball_qat_z", Fin 0.0, ballOrientZ s);
    ("ball_qat_w", Fin 1.0, ballOrientW s);
    ("obstacle_radius", Fin 0.0, obstacleRadius s);
    ("plate_nor_x", Fin 0.0, plateNorX s);
    ("plate_nor_y", Fin 0.0, plateNorY s);
    ("plate_nor_z", Fin 1.0, plateNorZ s) ]%string.

(** The fields copied without a default: (name, field). *)
Definition optional_fields (s : ModelState) : list (string * option number) :=
  [ ("estimated_x", estimatedPosX s);
    ("estimated_y", estimatedPosY s);
    ("estimated_radius", estimatedRadius s);
    ("estimated_vel_x", estimatedVelX s);
    ("estimated_vel_y", estimatedVelY s);
    ("reward", reward s) ]%string.


(** A renderer whose asset had every named node: the plate, the joystick
    and the three arms with both of their children, the plate origins at
    height 0.05. *)
Definition loadedRenderer : MoabRenderer := {|
  _ball := newObject3D;
  _target := newObject3D;
  _obstacle := newObject3D;
  _plate := Some newObject3D;
  _joystick := Some newObject3D;
  _estimatedPos := newObject3D;
  _estimatedVel :=
    newArrowHelper (Vector3.mk (Fin 1) (Fin 0) (Fin 0))
      (Vector3.mk (Fin 0) (Fin 0) (Fin 0)) (Fin 0.1);
  _armLeft := Some (mkArmGroup newObject3D (Some newObject3D) (Some newObject3D));
  _armCenter := Some (mkArmGroup newObject3D (Some newObject3D) (Some newObject3D));
  _armRight := Some (mkArmGroup newObject3D (Some newObject3D) (Some newObject3D));
  _plateOrig := Vector3.mk (Fin 0) (Fin 0) (Fin 0.05);
  _plateSurfaceOrig := Vector3.mk (Fin 0) (Fin 0) (Fin 0.05);
|}.

(** No component is NaN; every component is finite. *)
Definition vector_defined (v : Vector3.t) : Prop :=
  Vector3.x v <> NaN /\ Vector3.y v <> NaN /\ Vector3.z v <> NaN.

Definition vector_finite (v : Vector3.t) : Prop :=
  exists x y z : R, v = Vector3.mk (Fin x) (Fin y) (Fin z).

(** * Properties *)

Ltac receive_inv H :=
  unfold _receiveMessage in H;
  repeat match type of H with
         | (mbind _ ?m) = Some _ =>
             let E := fresh "E" in
             destruct m eqn:E; cbn [mbind option_bind] in H; [| discriminate H]
         end;
  injection H as H; subst.

(** ** Reading the boolean tests on reals *)

Lemma Rltb_true (x y : R) : x < y -> Rltb x y = true.
Proof. intros H. unfold Rltb. destruct (Rlt_dec x y); [reflexivity | contradiction]. Qed.

Lemma Rltb_false (x y : R) : y <= x -> Rltb x y = false.
Proof. intros H. unfold Rltb. destruct (Rlt_dec x y); [lra | reflexivity]. Qed.

Lemma Rleb_true (x y : R) : x <= y -> Rleb x y = true.
Proof. intros H. unfold Rleb. destruct (Rle_dec x y); [reflexivity | contradiction]. Qed.

Lemma Rleb_false (x y : R) : y < x -> Rleb x y = false.
Proof. intros H. unfold Rleb. destruct (Rle_dec x y); [lra | reflexivity]. Qed.

Lemma Reqb_true (x y : R) : x = y -> Reqb x y = true.
Proof. intros H. unfold Reqb. destruct (Req_dec_T x y); [reflexivity | contradiction]. Qed.

Lemma Reqb_false (x y : R) : x <> y -> Reqb x y = false.
Proof. intros H. unfold Reqb. destruct (Req_dec_T x y); [contradiction | reflexivity]. Qed.

Lemma Reqb_eq (x y : R) : Reqb x y = true <-> x = y.
Proof.
  unfold Reqb. destruct (Req_dec_T x y); split; intros; try assumption;
    try reflexivity; try discriminate; contradiction.
Qed.

(** ** Finite arithmetic stays finite *)

Lemma sqrt_Fin (r : R) : 0 <= r -> Math.sqrt (Fin r) = Fin (sqrt r).
Proof. intros H. unfold Math.sqrt. now rewrite Rltb_false. Qed.

Lemma div_Fin (p q : R) : q <> 0 -> (Fin p / Fin q)%js = Fin (p / q).
Proof. intros H. unfold num_div. now rewrite Reqb_false. Qed.

Lemma div_zero_zero : (Fin 0 / Fin 0)%js = NaN.
Proof. unfold num_div. now rewrite Reqb_true. Qed.

Lemma asin_Fin (r : R) : -1 <= r <= 1 -> Math.asin (Fin r) = Fin (asin r).
Proof. intros [H1 H2]. unfold Math.asin. now rewrite !Rleb_true. Qed.

Lemma acos_Fin (r : R) : -1 <= r <= 1 -> Math.acos (Fin r) = Fin (acos r).
Proof. intros [H1 H2]. unfold Math.acos. now rewrite !Rleb_true. Qed.

Lemma acos_out_of_domain (r : R) : r < -1 \/ 1 < r -> Math.acos (Fin r) = NaN.
Proof.
  intros [H | H]; unfold Math.acos.
  - now rewrite (Rleb_false (-1) r).
  - rewrite (Rleb_false r 1) by assumption. now destruct (Rleb (-1) r).
Qed.

Lemma ge_Fin (p q : R) : (Fin p >= Fin q)%js = Rleb q p.
Proof.
  unfold num_ge, num_le, num_lt, num_eq, Rltb, Reqb, Rleb.
  destruct (Rlt_dec q p), (Req_dec_T q p), (Rle_dec q p); simpl;
    try reflexivity; lra.
Qed.

Lemma ratio_in_unit (p d : R) : 0 < d -> - d <= p <= d -> -1 <= p / d <= 1.
Proof.
  intros Hd [H1 H2]. unfold Rdiv.
  assert (Hi : 0 < / d) by now apply Rinv_0_lt_compat.
  assert (Hone : d * / d = 1) by (apply Rinv_r; lra).
  split; nra.
Qed.

(** ** The arm solver *)

Lemma hypot_sqr (v h : R) : hypot v h * hypot v h = v * v + h * h.
Proof. unfold hypot. rewrite sqrt_sqrt; nra. Qed.

(** What the solver computes up to the hypotenuse, for finite inputs. *)
Lemma solver_hypot (v h : R) :
  Math.sqrt (Math.pow (Fin v) 2 + Math.pow (Fin h) 2)%js = Fin (hypot v h).
Proof.
  cbn [Math.pow num_mul num_add]. rewrite sqrt_Fin by nra.
  unfold hypot. f_equal. f_equal. ring.
Qed.

(** The shared computation: for [0 < c <= a + b] every argument handed to
    [asin] and [acos] lies in [[-1, 1]], so no NaN arises. *)
Lemma solver_in_reach (v h : R) :
  let c := hypot v h in
  0 < c ->
  c <= lower_arm + upper_arm ->
  _anglesForArmJoints (Fin v) (Fin h) =
    {| theta_link :=
         Fin (PI + acos ((lower_arm ^ 2 + upper_arm ^ 2 - c ^ 2)
                         / (2 * lower_arm * upper_arm)));
       theta_servo :=
         Fin (2 * PI -
              (if Rleb 0 h
               then asin (v / c)
                    - acos ((lower_arm ^ 2 + c ^ 2 - upper_arm ^ 2) / (2 * lower_arm * c))
               else PI - (asin (v / c)
                          + acos ((lower_arm ^ 2 + c ^ 2 - upper_arm ^ 2)
                                  / (2 * lower_arm * c))))) |}.
Proof.
  intros c Hc Hreach.
  pose proof (hypot_sqr v h) as Hsq. fold c in Hsq.
  unfold lower_arm, upper_arm in *.
  unfold _anglesForArmJoints. rewrite solver_hypot. fold c.
  assert (Hhc : -1 <= v / c <= 1) by (apply ratio_in_unit; [assumption | nra]).
  assert (Hlink : -1 <= (0.055 * 0.055 + 0.055 * 0.055 - c * c) / (2 * 0.055 * 0.055) <= 1)
    by (apply ratio_in_unit; nra).
  assert (Hac : -1 <= (0.055 * 0.055 + c * c - 0.055 * 0.055) / (2 * 0.055 * c) <= 1)
    by (apply ratio_in_unit; nra).
  cbn [Math.pow num_mul num_add num_sub num_neg].
  rewrite (div_Fin v c) by lra.
  rewrite (div_Fin _ (2 * 0.055 * 0.055)) by lra.
  rewrite (div_Fin _ (2 * 0.055 * c)) by nra.
  replace (0.055 * 0.055 + 0.055 * 0.055 + - (c * c))
    with (0.055 * 0.055 + 0.055 * 0.055 - c * c) by ring.
  replace (0.055 * 0.055 + c * c + - (0.055 * 0.055))
    with (0.055 * 0.055 + c * c - 0.055 * 0.055) by ring.
  rewrite asin_Fin, !acos_Fin by assumption.
  rewrite ge_Fin. unfold Math.PI.
  replace (0.055 ^ 2 + 0.055 ^ 2 - c ^ 2) with (0.055 * 0.055 + 0.055 * 0.055 - c * c) by ring.
  replace (0.055 ^ 2 + c ^ 2 - 0.055 ^ 2) with (0.055 * 0.055 + c * c - 0.055 * 0.055) by ring.
  destruct (Rleb 0 h); cbn [num_mul num_add num_sub num_neg]; f_equal; f_equal; ring.
Qed.

(** Beyond full extension both [acos] arguments leave [[-1, 1]]: the elbow
    argument drops below -1 and the shoulder argument exceeds 1. *)
Lemma solver_beyond_reach (v h : R) :
  lower_arm + upper_arm < hypot v h ->
  _anglesForArmJoints (Fin v) (Fin h) = {| theta_link := NaN; theta_servo := NaN |}.
Proof.
  intros Hfar. set (c := hypot v h) in *.
  pose proof (hypot_sqr v h) as Hsq. fold c in Hsq.
  unfold lower_arm, upper_arm in *.
  unfold _anglesForArmJoints. rewrite solver_hypot. fold c.
  assert (Hhc : -1 <= v / c <= 1) by (apply ratio_in_unit; nra).
  assert (Hi : 0 < / (2 * 0.055 * c)) by (apply Rinv_0_lt_compat; nra).
  assert (Hone : (2 * 0.055 * c) * / (2 * 0.055 * c) = 1) by (apply Rinv_r; nra).
  cbn [Math.pow num_mul num_add num_sub num_neg].
  rewrite (div_Fin v c) by lra.
  rewrite (div_Fin _ (2 * 0.055 * 0.055)) by lra.
  rewrite (div_Fin _ (2 * 0.055 * c)) by nra.
  rewrite asin_Fin by assumption.
  rewrite !acos_out_of_domain.
  - now destruct (Fin h >= Fin 0)%js.
  - right. unfold Rdiv. nra.
  - left. unfold Rdiv. nra.
Qed.

Lemma hypot_zero : hypot 0 0 = 0.
Proof. unfold hypot. replace (0 ^ 2 + 0 ^ 2) with 0 by ring. apply sqrt_0. Qed.

Lemma hypot_zero_inv (v h : R) : hypot v h = 0 -> v = 0 /\ h = 0.
Proof. intros H. pose proof (hypot_sqr v h) as Hsq. rewrite H in Hsq. split; nra. Qed.

Lemma hypot_axis (v : R) : 0 <= v -> hypot v 0 = v.
Proof.
  intros H. unfold hypot. replace (v ^ 2 + 0 ^ 2) with (v * v) by ring.
  now apply sqrt_square.
Qed.

(** With the contact point on the shoulder joint the hypotenuse is 0: the two
    quotients by [c] are 0/0, the elbow term has no such quotient. *)
Lemma solver_at_origin :
  _anglesForArmJoints (Fin 0) (Fin 0) = {| theta_link := Fin PI; theta_servo := NaN |}.
Proof.
  unfold _anglesForArmJoints. rewrite solver_hypot, hypot_zero.
  cbn [Math.pow num_mul num_add num_sub num_neg].
  rewrite div_zero_zero.
  rewrite (div_Fin _ (2 * 0.055 * 0.055)) by lra.
  replace ((0.055 * 0.055 + 0.055 * 0.055 + - (0 * 0)) / (2 * 0.055 * 0.055)) with 1 by lra.
  rewrite acos_Fin by lra. rewrite acos_1.
  unfold num_div. rewrite !Reqb_true by lra.
  destruct (Fin 0 >= Fin 0)%js; cbn; unfold Math.PI; cbn;
    (f_equal; f_equal; ring).
Qed.

(** C1: inside the reachable range and away from [c = 0], the solver returns
    [PI + theta_link] and [2 PI - servoAngle_raw], where [theta_hc],
    [theta_link] and [theta_ac] are the law-of-cosines angles and
    [servoAngle_raw] branches on the sign of [h]. *)
Theorem C1_arm_angles_formulas (v h : R) :
  let a := lower_arm in
  let b := upper_arm in
  let c := hypot v h in
  0 < c ->
  Rabs (a - b) <= c <= a + b ->
  let theta_hc := asin (v / c) in
  let theta_link := acos ((a ^ 2 + b ^ 2 - c ^ 2) / (2 * a * b)) in
  let theta_ac := acos ((a ^ 2 + c ^ 2 - b ^ 2) / (2 * a * c)) in
  let servoAngle_raw :=
    if Rleb 0 h then theta_hc - theta_ac else PI - (theta_hc + theta_ac) in
  _anglesForArmJoints (Fin v) (Fin h) =
    {| theta_link := Fin (PI + theta_link);
       theta_servo := Fin (2 * PI - servoAngle_raw) |}.
Proof.
  intros a b c Hc [_ Hreach] theta_hc theta_link' theta_ac servoAngle_raw.
  apply solver_in_reach; assumption.
Qed.

Lemma C1_arm_angles_formulas_witness :
  0 < hypot 0.055 0 /\
  Rabs (lower_arm - upper_arm) <= hypot 0.055 0 <= lower_arm + upper_arm /\
  _anglesForArmJoints (Fin 0.055) (Fin 0) =
    {| theta_link :=
         Fin (PI + acos ((lower_arm ^ 2 + upper_arm ^ 2 - hypot 0.055 0 ^ 2)
                         / (2 * lower_arm * upper_arm)));
       theta_servo :=
         Fin (2 * PI -
              (if Rleb 0 0
               then asin (0.055 / hypot 0.055 0)
                    - acos ((lower_arm ^ 2 + hypot 0.055 0 ^ 2 - upper_arm ^ 2)
                            / (2 * lower_arm * hypot 0.055 0))
               else PI - (asin (0.055 / hypot 0.055 0)
                          + acos ((lower_arm ^ 2 + hypot 0.055 0 ^ 2 - upper_arm ^ 2)
                                  / (2 * lower_arm * hypot 0.055 0))))) |}.
Proof.
  assert (Hc : hypot 0.055 0 = 0.055) by (apply hypot_axis; lra).
  assert (Hab : Rabs (lower_arm - upper_arm) = 0).
  { unfold lower_arm, upper_arm.
    replace (0.055 - 0.055) with 0 by ring. apply Rabs_R0. }
  split; [rewrite Hc; lra |].
  split; [rewrite Hc, Hab; unfold lower_arm, upper_arm; lra |].
  apply (C1_arm_angles_formulas 0.055 0).
  - rewrite Hc; lra.
  - rewrite Hc, Hab; unfold lower_arm, upper_arm; lra.
Defined.

(** C6, as the code has it: the solver neither clamps nor rejects.  Beyond
    full extension ([a + b < c]) both returned angles are NaN; at full
    extension ([c = a + b]) both are defined; at the folded boundary
    ([c = |a - b|], which is 0 for the equal links of the source) the link
    angle is [PI] and the servo angle is NaN. *)
Theorem C6_no_clamp_beyond_reach (v h : R) :
  let c := hypot v h in
  (lower_arm + upper_arm < c ->
   _anglesForArmJoints (Fin v) (Fin h) = {| theta_link := NaN; theta_servo := NaN |}) /\
  (c = lower_arm + upper_arm ->
   exists servo : R,
     _anglesForArmJoints (Fin v) (Fin h) =
       {| theta_link := Fin (2 * PI); theta_servo := Fin servo |}) /\
  (c = Rabs (lower_arm - upper_arm) ->
   _anglesForArmJoints (Fin v) (Fin h) = {| theta_link := Fin PI; theta_servo := NaN |}).
Proof.
  intros c. split; [| split].
  - apply solver_beyond_reach.
  - intros Hc. eexists.
    rewrite solver_in_reach; fold c; rewrite ?Hc; unfold lower_arm, upper_arm; try lra.
    f_equal. f_equal.
    replace ((0.055 ^ 2 + 0.055 ^ 2 - (0.055 + 0.055) ^ 2) / (2 * 0.055 * 0.055))
      with (- (1)) by lra.
    rewrite acos_opp, acos_1. ring.
  - intros Hc. assert (Hz : c = 0).
    { rewrite Hc. unfold lower_arm, upper_arm.
      replace (0.055 - 0.055) with 0 by ring. apply Rabs_R0. }
    destruct (hypot_zero_inv v h Hz) as [-> ->]. apply solver_at_origin.
Qed.

Lemma C6_no_clamp_beyond_reach_witness :
  (lower_arm + upper_arm < hypot 0.2 0 /\
   _anglesForArmJoints (Fin 0.2) (Fin 0) = {| theta_link := NaN; theta_servo := NaN |}) /\
  (hypot 0.11 0 = lower_arm + upper_arm /\
   exists servo : R,
     _anglesForArmJoints (Fin 0.11) (Fin 0) =
       {| theta_link := Fin (2 * PI); theta_servo := Fin servo |}) /\
  (hypot 0 0 = Rabs (lower_arm - upper_arm) /\
   _anglesForArmJoints (Fin 0) (Fin 0) = {| theta_link := Fin PI; theta_servo := NaN |}).
Proof.
  assert (H1 : lower_arm + upper_arm < hypot 0.2 0)
    by (rewrite hypot_axis; unfold lower_arm, upper_arm; lra).
  assert (H2 : hypot 0.11 0 = lower_arm + upper_arm)
    by (rewrite hypot_axis; unfold lower_arm, upper_arm; lra).
  assert (H3 : hypot 0 0 = Rabs (lower_arm - upper_arm)).
  { rewrite hypot_zero. unfold lower_arm, upper_arm.
    replace (0.055 - 0.055) with 0 by ring. symmetry. apply Rabs_R0. }
  split; [| split].
  - split; [exact H1 |]. exact (proj1 (C6_no_clamp_beyond_reach 0.2 0) H1).
  - split; [exact H2 |].
    exact (proj1 (proj2 (C6_no_clamp_beyond_reach 0.11 0)) H2).
  - split; [exact H3 |].
    exact (proj2 (proj2 (C6_no_clamp_beyond_reach 0 0)) H3).
Defined.

(** C6 as stated fails: at [(v, h) = (0.2, 0)], outside the reachable range,
    the solver answers NaN for both angles, and at the folded boundary
    [(0, 0)] the servo angle is NaN. *)
Lemma C6_counterexample :
  (lower_arm + upper_arm < hypot 0.2 0 /\
   _anglesForArmJoints (Fin 0.2) (Fin 0) = {| theta_link := NaN; theta_servo := NaN |}) /\
  (hypot 0 0 = Rabs (lower_arm - upper_arm) /\
   theta_servo (_anglesForArmJoints (Fin 0) (Fin 0)) = NaN).
Proof.
  split; split.
  - rewrite hypot_axis; unfold lower_arm, upper_arm; lra.
  - apply solver_beyond_reach. rewrite hypot_axis; unfold lower_arm, upper_arm; lra.
  - rewrite hypot_zero. unfold lower_arm, upper_arm.
    replace (0.055 - 0.055) with 0 by ring. symmetry. apply Rabs_R0.
  - now rewrite solver_at_origin.
Qed.

(** C10, as the code has it: at [v = 0], [h = 0] the hypotenuse is 0 and the
    quotient [v / c] is 0/0 = NaN, so the servo angle is NaN; the link angle
    has no quotient by [c] and comes out as [PI + acos 1 = PI]. *)
Theorem C10_origin_link_defined_servo_nan :
  Math.sqrt (Math.pow (Fin 0) 2 + Math.pow (Fin 0) 2)%js = Fin 0 /\
  (Fin 0 / Fin 0)%js = NaN /\
  _anglesForArmJoints (Fin 0) (Fin 0) = {| theta_link := Fin PI; theta_servo := NaN |}.
Proof.
  split; [| split].
  - rewrite solver_hypot. now rewrite hypot_zero.
  - apply div_zero_zero.
  - apply solver_at_origin.
Qed.

(** C10 as stated fails: the link angle returned for [(0, 0)] is not NaN. *)
Lemma C10_counterexample :
  theta_link (_anglesForArmJoints (Fin 0) (Fin 0)) <> NaN.
Proof. rewrite solver_at_origin. discriminate. Qed.

(** ** Ball orientation *)

Lemma conjugate_inverse (q : Quaternion.t) :
  unit_quaternion q ->
  Quaternion.multiply (Quaternion.conjugate q) q = Quaternion.identity /\
  Quaternion.multiply q (Quaternion.conjugate q) = Quaternion.identity.
Proof.
  intros (x & y & z & w & -> & Hunit).
  unfold Quaternion.multiply, Quaternion.multiplyQuaternions, Quaternion.conjugate,
    Quaternion.identity.
  cbn. split; f_equal; f_equal; nra.
Qed.

Lemma render_ball_quaternion (EPS : number) (this : MoabRenderer) (s : ModelState) :
  quaternion (_ball (_render3DScene EPS this s)) = Quaternion.invert (ballOrient s).
Proof. reflexivity. Qed.

(** C3: for a unit ball quaternion [q], the orientation given to the ball is
    the inverse of [q]: multiplied with [q], on either side, it yields the
    identity quaternion. *)
Theorem C3_ball_orientation_inverse
    (EPS : number) (this : MoabRenderer) (s : ModelState) :
  unit_quaternion (ballOrient s) ->
  let out := quaternion (_ball (_render3DScene EPS this s)) in
  Quaternion.multiply out (ballOrient s) = Quaternion.identity /\
  Quaternion.multiply (ballOrient s) out = Quaternion.identity.
Proof.
  intros Hunit out. unfold out. rewrite render_ball_quaternion.
  now apply conjugate_inverse.
Qed.

Lemma C3_ball_orientation_inverse_witness :
  let s := state_after initialState
             {[ "ball_qat_x" := JNumber (Fin 1); "ball_qat_w" := JNumber (Fin 0) ]} in
  let out := quaternion (_ball (_render3DScene (Fin 0.000001) mountedRenderer s)) in
  ballOrient s = Quaternion.mk (Fin 1) (Fin 0.0) (Fin 0.0) (Fin 0) /\
  unit_quaternion (ballOrient s) /\
  Quaternion.multiply out (ballOrient s) = Quaternion.identity /\
  Quaternion.multiply (ballOrient s) out = Quaternion.identity.
Proof.
  intros s out.
  assert (Hq : ballOrient s = Quaternion.mk (Fin 1) (Fin 0.0) (Fin 0.0) (Fin 0))
    by reflexivity.
  assert (Hunit : unit_quaternion (ballOrient s))
    by (exists 1, 0.0, 0.0, 0; split; [exact Hq | lra]).
  split; [exact Hq |]. split; [exact Hunit |].
  exact (C3_ball_orientation_inverse (Fin 0.000001) mountedRenderer s Hunit).
Defined.

(** ** Plate orientation *)

(** The plate object, when the asset has one, is given that position and
    orientation. *)
Lemma render_plate (EPS : number) (this : MoabRenderer) (s : ModelState) (plate : Object3D) :
  _plate this = Some plate ->
  _plate (_render3DScene EPS this s) =
    Some (mkObject3D (platePos_of this s) (plateQ_of EPS s) (scale plate) (visible plate)).
Proof. intros H. unfold _render3DScene. cbn [_plate]. now rewrite H. Qed.

Lemma normalize_Fin (a b c d : R) :
  0 < a * a + b * b + c * c + d * d ->
  Quaternion.normalize (Quaternion.mk (Fin a) (Fin b) (Fin c) (Fin d)) =
    let l := 1 / sqrt (a * a + b * b + c * c + d * d) in
    Quaternion.mk (Fin (a * l)) (Fin (b * l)) (Fin (c * l)) (Fin (d * l)).
Proof.
  intros Hpos. unfold Quaternion.normalize, Quaternion.length.
  cbn [Quaternion.x Quaternion.y Quaternion.z Quaternion.w num_mul num_add].
  rewrite sqrt_Fin by lra.
  assert (HL : 0 < sqrt (a * a + b * b + c * c + d * d)) by now apply sqrt_lt_R0.
  unfold num_eq. rewrite Reqb_false by lra.
  rewrite div_Fin by lra. reflexivity.
Qed.

(** Away from the opposite direction, [setFromUnitVectors] normalizes
    [(zAxis x n, 1 + zAxis . n)]. *)
Lemma shortest_arc (e nx ny nz : R) :
  0 < e <= 1 + nz ->
  Quaternion.setFromUnitVectors (Fin e) zAxis (Vector3.mk (Fin nx) (Fin ny) (Fin nz)) =
    let l := 1 / sqrt (nx * nx + ny * ny + (1 + nz) * (1 + nz)) in
    Quaternion.mk (Fin (- ny * l)) (Fin (nx * l)) (Fin (0 * l)) (Fin ((1 + nz) * l)).
Proof.
  intros [He Hr]. unfold Quaternion.setFromUnitVectors, Vector3.dot, zAxis.
  cbn [Vector3.x Vector3.y Vector3.z num_mul num_add num_sub num_neg].
  unfold num_lt. rewrite Rltb_false by lra.
  replace (0 * nz + - (1 * ny)) with (- ny) by ring.
  replace (1 * nx + - (0 * nz)) with nx by ring.
  replace (0 * ny + - (0 * nx)) with 0 by ring.
  replace (0 * nx + 0 * ny + 1 * nz + 1) with (1 + nz) by ring.
  rewrite normalize_Fin by nra.
  cbv zeta.
  replace (- ny * - ny + nx * nx + 0 * 0 + (1 + nz) * (1 + nz))
    with (nx * nx + ny * ny + (1 + nz) * (1 + nz)) by ring.
  reflexivity.
Qed.

(** Where that quaternion sends the up axis, for any finite [n]. *)
Lemma plate_up_image (e nx ny nz : R) :
  0 < e <= 1 + nz ->
  let S := nx * nx + ny * ny + (1 + nz) * (1 + nz) in
  applyQuaternion zAxis
    (Quaternion.setFromUnitVectors (Fin e) zAxis (Vector3.mk (Fin nx) (Fin ny) (Fin nz))) =
    Vector3.mk (Fin (2 * (1 + nz) * nx / S)) (Fin (2 * (1 + nz) * ny / S))
               (Fin (((1 + nz) * (1 + nz) - nx * nx - ny * ny) / S)).
Proof.
  intros He S. rewrite shortest_arc by assumption. cbv zeta. fold S.
  assert (HS : 0 < S) by (unfold S; nra).
  assert (HL : 0 < sqrt S) by now apply sqrt_lt_R0.
  assert (HLL : sqrt S * sqrt S = S) by (apply sqrt_sqrt; lra).
  unfold applyQuaternion, zAxis.
  cbn [Vector3.x Vector3.y Vector3.z Quaternion.x Quaternion.y Quaternion.z
       Quaternion.w num_mul num_add num_sub num_neg].
  set (L := sqrt S) in *. clearbody L. rewrite <- HLL.
  f_equal; f_equal; field; lra.
Qed.

(** C2, as the code has it: for a plate normal [n] of unit length that is at
    least the library tolerance away from the opposite of the up axis
    ([e <= 1 + n_z]), the plate orientation sends (0,0,1) to [n] itself. *)
Theorem C2_unit_normal_up_onto_normal (e : R) (s : ModelState) (nx ny nz : R) :
  plateNor s = Vector3.mk (Fin nx) (Fin ny) (Fin nz) ->
  nx * nx + ny * ny + nz * nz = 1 ->
  0 < e <= 1 + nz ->
  applyQuaternion zAxis (plateQ_of (Fin e) s) = plateNor s.
Proof.
  intros Hn Hunit He.
  change (plateQ_of (Fin e) s)
    with (Quaternion.setFromUnitVectors (Fin e) zAxis (plateNor s)).
  rewrite Hn, plate_up_image by assumption. cbv zeta.
  assert (HS : nx * nx + ny * ny + (1 + nz) * (1 + nz) = 2 * (1 + nz)) by nra.
  rewrite HS. f_equal; f_equal; field_simplify_eq; nra.
Qed.

Lemma C2_unit_normal_up_onto_normal_witness :
  let s := state_after initialState
             {[ "plate_nor_x" := JNumber (Fin (3 / 5));
                "plate_nor_z" := JNumber (Fin (4 / 5)) ]} in
  plateNor s = Vector3.mk (Fin (3 / 5)) (Fin 0.0) (Fin (4 / 5)) /\
  (3 / 5) * (3 / 5) + 0.0 * 0.0 + (4 / 5) * (4 / 5) = 1 /\
  0 < 0.000001 <= 1 + 4 / 5 /\
  plateQ_of (Fin 0.000001) s <> Quaternion.identity /\
  applyQuaternion zAxis (plateQ_of (Fin 0.000001) s) =
    Vector3.mk (Fin (3 / 5)) (Fin 0.0) (Fin (4 / 5)).
Proof.
  intros s.
  assert (Hn : plateNor s = Vector3.mk (Fin (3 / 5)) (Fin 0.0) (Fin (4 / 5)))
    by reflexivity.
  assert (Hunit : (3 / 5) * (3 / 5) + 0.0 * 0.0 + (4 / 5) * (4 / 5) = 1) by lra.
  assert (He : 0 < 0.000001 <= 1 + 4 / 5) by lra.
  pose proof (C2_unit_normal_up_onto_normal 0.000001 s (3 / 5) 0.0 (4 / 5) Hn Hunit He)
    as Himg.
  rewrite Hn in Himg.
  split; [exact Hn |]. split; [exact Hunit |]. split; [exact He |].
  split; [| exact Himg].
  intros Hid. rewrite Hid in Himg.
  apply (f_equal Vector3.x) in Himg. cbn in Himg.
  injection Himg as Hx. lra.
Defined.

(** C2 as stated fails for a normal that is not of unit length: for
    [n = (2, 0, 0)] the up axis is sent to (4/5, 0, -3/5), which is not
    parallel to [n]. *)
Lemma C2_counterexample :
  let s := state_after initialState
             {[ "plate_nor_x" := JNumber (Fin 2); "plate_nor_z" := JNumber (Fin 0) ]} in
  plateNor s = Vector3.mk (Fin 2) (Fin 0.0) (Fin 0) /\
  applyQuaternion zAxis (plateQ_of (Fin 0.000001) s) =
    Vector3.mk (Fin (4 / 5)) (Fin 0) (Fin (- 3 / 5)) /\
  ~ parallel (applyQuaternion zAxis (plateQ_of (Fin 0.000001) s)) (plateNor s).
Proof.
  intros s.
  assert (Hn : plateNor s = Vector3.mk (Fin 2) (Fin 0.0) (Fin 0)) by reflexivity.
  assert (Himg : applyQuaternion zAxis (plateQ_of (Fin 0.000001) s) =
                 Vector3.mk (Fin (4 / 5)) (Fin 0) (Fin (- 3 / 5))).
  { change (plateQ_of (Fin 0.000001) s)
      with (Quaternion.setFromUnitVectors (Fin 0.000001) zAxis (plateNor s)).
    rewrite Hn, plate_up_image by lra. cbv zeta. f_equal; f_equal; lra. }
  split; [exact Hn |]. split; [exact Himg |].
  rewrite Himg, Hn. intros (k & _ & Hk).
  unfold Vector3.multiplyScalar in Hk. cbn in Hk.
  injection Hk as _ _ Hz. lra.
Qed.

(** Within the tolerance of the opposite direction the library takes its
    fallback branch, whose axis for [vFrom = zAxis] is the y axis: the result
    is the half turn about y whatever the normal. *)
Lemma fallback_quaternion (e nx ny nz : R) :
  1 + nz < e ->
  Quaternion.setFromUnitVectors (Fin e) zAxis (Vector3.mk (Fin nx) (Fin ny) (Fin nz)) =
    Quaternion.mk (Fin 0) (Fin (-1)) (Fin 0) (Fin 0).
Proof.
  intros He. unfold Quaternion.setFromUnitVectors, Vector3.dot, zAxis.
  cbn [Vector3.x Vector3.y Vector3.z num_mul num_add num_sub num_neg Math.abs].
  unfold num_lt at 1. rewrite Rltb_true by lra.
  unfold num_gt, num_lt. rewrite Rabs_R0, Rabs_R1, Rltb_false by lra.
  rewrite normalize_Fin by lra. cbv zeta.
  replace (0 * 0 + - (1) * - (1) + 0 * 0 + 0 * 0) with 1 by ring.
  rewrite sqrt_1. f_equal; f_equal; lra.
Qed.

(** C8: for the plate normal (0,0,-1) the plate orientation is the
    quaternion (0,-1,0,0): no component is NaN, it has unit length and a zero
    scalar part (a half turn, here about the y axis), and it sends the up
    axis onto the normal. *)
Theorem C8_opposite_normal_half_turn (e : R) (s : ModelState) :
  0 < e ->
  plateNor s = Vector3.mk (Fin 0) (Fin 0) (Fin (-1)) ->
  plateQ_of (Fin e) s = Quaternion.mk (Fin 0) (Fin (-1)) (Fin 0) (Fin 0) /\
  Quaternion.defined (plateQ_of (Fin e) s) /\
  unit_quaternion (plateQ_of (Fin e) s) /\
  applyQuaternion zAxis (plateQ_of (Fin e) s) = plateNor s.
Proof.
  intros He Hn.
  assert (Hq : plateQ_of (Fin e) s = Quaternion.mk (Fin 0) (Fin (-1)) (Fin 0) (Fin 0)).
  { change (plateQ_of (Fin e) s)
      with (Quaternion.setFromUnitVectors (Fin e) zAxis (plateNor s)).
    rewrite Hn. apply fallback_quaternion. lra. }
  rewrite Hq, Hn. split; [reflexivity |]. split; [| split].
  - repeat split; discriminate.
  - exists 0, (-1), 0, 0. split; [reflexivity | ring].
  - unfold applyQuaternion, zAxis. cbn. f_equal; f_equal; ring.
Qed.

Lemma C8_opposite_normal_half_turn_witness :
  let s := state_after initialState {[ "plate_nor_z" := JNumber (Fin (-1)) ]} in
  0 < 0.000001 /\
  plateNor s = Vector3.mk (Fin 0.0) (Fin 0.0) (Fin (-1)) /\
  plateQ_of (Fin 0.000001) s = Quaternion.mk (Fin 0) (Fin (-1)) (Fin 0) (Fin 0).
Proof.
  intros s.
  assert (Hn : plateNor s = Vector3.mk (Fin 0) (Fin 0) (Fin (-1))).
  { change (plateNor s) with (Vector3.mk (Fin 0.0) (Fin 0.0) (Fin (-1))).
    replace 0.0 with 0 by lra. reflexivity. }
  split; [lra |]. split; [reflexivity |].
  apply (C8_opposite_normal_half_turn 0.000001 s); [lra | exact Hn].
Defined.

(** ** Estimated-ball ring and estimated-velocity arrow *)

Lemma truthy_spec (x : number) : truthy x = true <-> x <> Fin 0 /\ x <> NaN.
Proof.
  destruct x as [r | | |]; cbn.
  - unfold Reqb. destruct (Req_dec_T r 0) as [-> | Hne]; cbn.
    + split; [discriminate | intros [H _]; now contradiction H].
    + split; [intros _; split; [intros [= ?]; contradiction | discriminate] | reflexivity].
  - split; [intros _; split; discriminate | reflexivity].
  - split; [intros _; split; discriminate | reflexivity].
  - split; [discriminate | intros [_ H]; now contradiction H].
Qed.

Lemma or_default_present (x b : number) :
  x <> Fin 0 -> x <> NaN -> or_default (Some x) b = x.
Proof.
  intros H0 Hn. unfold or_default, or_else.
  now rewrite (proj2 (truthy_spec x) (conj H0 Hn)).
Qed.

(** C4, as the code has it: the fallback is taken per coordinate.  The ring
    position takes the estimated X when it is present (and is a number other
    than 0 and NaN) and the ball's X when it is absent, likewise and
    independently for Y, each shifted by the plate origin; its Z is the
    plate's Z plus the plate origin's Z in every case.  The ring is moved
    there whenever it is shown. *)
Theorem C4_ring_position_per_coordinate
    (EPS : number) (this : MoabRenderer) (s : ModelState) :
  let p := ballRingPos_of this s in
  (forall x, estimatedPosX s = Some x -> x <> Fin 0 -> x <> NaN ->
             Vector3.x p = (x + Vector3.x (_plateOrig this))%js) /\
  (estimatedPosX s = None ->
   Vector3.x p = (ballPosX s + Vector3.x (_plateOrig this))%js) /\
  (forall y, estimatedPosY s = Some y -> y <> Fin 0 -> y <> NaN ->
             Vector3.y p = (y + Vector3.y (_plateOrig this))%js) /\
  (estimatedPosY s = None ->
   Vector3.y p = (ballPosY s + Vector3.y (_plateOrig this))%js) /\
  Vector3.z p = (platePosZ s + Vector3.z (_plateOrig this))%js /\
  (visible (_estimatedPos (_render3DScene EPS this s)) = true ->
   position (_estimatedPos (_render3DScene EPS this s)) = p).
Proof.
  intros p. unfold p, ballRingPos_of, Vector3.add. cbn [Vector3.x Vector3.y Vector3.z].
  repeat split.
  - intros x -> H0 Hn. now rewrite or_default_present.
  - now intros ->.
  - intros y -> H0 Hn. now rewrite or_default_present.
  - now intros ->.
  - unfold _render3DScene. cbn [_estimatedPos].
    unfold ballRingPos_of, Vector3.add. cbn [Vector3.x Vector3.y Vector3.z].
    destruct (estimatedPosX s), (estimatedPosY s), (estimatedRadius s);
      cbn; intros H; try discriminate; reflexivity.
Qed.

Lemma C4_ring_position_per_coordinate_witness :
  let s := state_after initialState
             {[ "estimated_x" := JNumber (Fin 0.05); "ball_y" := JNumber (Fin 0.02) ]} in
  let p := ballRingPos_of mountedRenderer s in
  estimatedPosX s = Some (Fin 0.05) /\ estimatedPosY s = None /\
  Vector3.x p = (Fin 0.05 + Fin 0)%js /\
  Vector3.y p = (Fin 0.02 + Fin 0)%js.
Proof.
  intros s p. split; [reflexivity |]. split; [reflexivity |].
  pose proof (C4_ring_position_per_coordinate (Fin 0.000001) mountedRenderer s)
    as (HX & _ & _ & HY & _).
  split.
  - apply (HX (Fin 0.05)); [reflexivity | intros [= H]; lra | discriminate].
  - apply HY. reflexivity.
Defined.

(** C4 as stated fails.  With the estimated X present and the estimated Y
    absent, the position keeps the estimated X instead of falling back to the
    ball's X; and with both estimates present but the estimated X equal to 0,
    the position takes the ball's X. *)
Lemma C4_counterexample :
  (let s := state_after initialState
              {[ "estimated_x" := JNumber (Fin 0.05); "ball_x" := JNumber (Fin 0.01) ]} in
   estimatedPosX s = Some (Fin 0.05) /\ estimatedPosY s = None /\
   ballPosX s = Fin 0.01 /\
   Vector3.x (ballRingPos_of mountedRenderer s) = Fin (0.05 + 0) /\
   Vector3.x (ballRingPos_of mountedRenderer s)
     <> (ballPosX s + Vector3.x (_plateOrig mountedRenderer))%js) /\
  (let s := state_after initialState
              {[ "estimated_x" := JNumber (Fin 0); "estimated_y" := JNumber (Fin 0.02);
                 "ball_x" := JNumber (Fin 0.01) ]} in
   estimatedPosX s = Some (Fin 0) /\ estimatedPosY s = Some (Fin 0.02) /\
   ballPosX s = Fin 0.01 /\
   Vector3.x (ballRingPos_of mountedRenderer s) = Fin (0.01 + 0) /\
   Vector3.x (ballRingPos_of mountedRenderer s)
     <> (Fin 0 + Vector3.x (_plateOrig mountedRenderer))%js).
Proof.
  split; intros s.
  - assert (Hx : Vector3.x (ballRingPos_of mountedRenderer s) = Fin (0.05 + 0)).
    { unfold ballRingPos_of, Vector3.add. cbn [Vector3.x].
      change (estimatedPosX s) with (Some (Fin 0.05)).
      rewrite or_default_present; [reflexivity | intros [= H]; lra | discriminate]. }
    repeat split; try reflexivity; try exact Hx.
    rewrite Hx. change (ballPosX s) with (Fin 0.01).
    change (Vector3.x (_plateOrig mountedRenderer)) with (Fin 0).
    cbn [num_add]. intros [= H]. lra.
  - assert (Hx : Vector3.x (ballRingPos_of mountedRenderer s) = Fin (0.01 + 0)).
    { unfold ballRingPos_of, Vector3.add. cbn [Vector3.x].
      change (estimatedPosX s) with (Some (Fin 0)).
      change (ballPosX s) with (Fin 0.01).
      unfold or_default, or_else, truthy. rewrite Reqb_true by reflexivity.
      reflexivity. }
    repeat split; try reflexivity; try exact Hx.
    rewrite Hx. change (Vector3.x (_plateOrig mountedRenderer)) with (Fin 0).
    cbn [num_add]. intros [= H]. lra.
Qed.

Lemma length_zeroVector : Vector3.length zeroVector = Fin 0.
Proof.
  unfold Vector3.length, zeroVector. cbn [Vector3.x Vector3.y Vector3.z num_mul num_add].
  rewrite sqrt_Fin by lra. replace (0 * 0 + 0 * 0 + 0 * 0) with 0 by ring.
  now rewrite sqrt_0.
Qed.

(** [normalize] guards its division: a zero length is replaced by 1. *)
Lemma normalize_zeroVector : Vector3.normalize zeroVector = zeroVector.
Proof.
  unfold Vector3.normalize. rewrite length_zeroVector.
  unfold or_else, truthy. rewrite Reqb_true by reflexivity. cbn [negb].
  unfold Vector3.divideScalar, Vector3.multiplyScalar, zeroVector.
  rewrite div_Fin by lra. cbn [Vector3.x Vector3.y Vector3.z num_mul].
  f_equal; f_equal; lra.
Qed.

(** Only the zero vector has length 0. *)
Lemma length_zero_inv (vx vy : number) :
  Vector3.length (Vector3.mk vx vy (Fin 0)) = Fin 0 -> vx = Fin 0 /\ vy = Fin 0.
Proof.
  unfold Vector3.length. cbn [Vector3.x Vector3.y Vector3.z].
  destruct vx as [a | | |], vy as [b | | |]; cbn [num_mul num_add];
    try (cbn [Math.sqrt]; discriminate).
  rewrite sqrt_Fin by nra. intros [= H].
  apply sqrt_eq_0 in H; [| nra]. split; f_equal; nra.
Qed.

Lemma arrow_direction_zero (a : ArrowHelper) :
  quaternion (arrow (setDirection a zeroVector)) =
    Quaternion.mk (Fin 0) (Fin 0) (Fin 0) (Fin (cos (PI / 4))).
Proof.
  unfold setDirection, zeroVector, arrow_with, set_quaternion.
  cbn [arrow quaternion Vector3.x Vector3.y Vector3.z num_neg].
  unfold num_gt, num_lt. rewrite !Rltb_false by lra.
  replace (- 0) with 0 by ring. fold zeroVector. rewrite normalize_zeroVector.
  rewrite acos_Fin by lra. rewrite acos_0.
  unfold Quaternion.setFromAxisAngle, zeroVector.
  rewrite div_Fin by lra. cbn [Math.sin Math.cos Vector3.x Vector3.y Vector3.z num_mul].
  replace (PI / 2 / 2) with (PI / 4) by lra.
  f_equal; f_equal; ring.
Qed.

(** C5, as the code has it: whenever both estimated-velocity components are
    present the arrow is shown, also for a vector of zero length.  In that
    case nothing is divided by zero, because the library's [normalize]
    divides by 1 when the length is 0: the direction is the zero vector, the
    arrow keeps a defined orientation, and its shaft and head sizes are
    defined numbers. *)
Theorem C5_zero_velocity_arrow_shown
    (EPS : number) (this : MoabRenderer) (s : ModelState) (vx vy : number) :
  estimatedVelX s = Some vx ->
  estimatedVelY s = Some vy ->
  let a := _estimatedVel (_render3DScene EPS this s) in
  visible (arrow a) = true /\
  (Vector3.length (Vector3.mk vx vy (Fin 0)) = Fin 0 ->
   Vector3.normalize (Vector3.mk vx vy (Fin 0)) = zeroVector /\
   quaternion (arrow a) = Quaternion.mk (Fin 0) (Fin 0) (Fin 0) (Fin (cos (PI / 4))) /\
   line_scale a = Vector3.mk (Fin 1) (Fin 0.0001) (Fin 1) /\
   cone_scale a = Vector3.mk (Fin 0.002) (Fin 0.003) (Fin 0.002) /\
   cone_position_y a = Fin 0).
Proof.
  intros HX HY a. unfold a, _render3DScene. cbn [_estimatedVel]. rewrite HX, HY.
  split; [reflexivity |].
  intros Hlen. destruct (length_zero_inv vx vy Hlen) as [-> ->].
  fold zeroVector. rewrite normalize_zeroVector, length_zeroVector.
  split; [reflexivity |]. split; [| split; [| split]].
  - cbn [arrow_with arrow setLength set_visible quaternion].
    apply arrow_direction_zero.
  - cbn [arrow_with setLength line_scale num_sub num_neg num_add].
    unfold Math.max, num_lt. rewrite Rltb_false by lra. reflexivity.
  - reflexivity.
  - reflexivity.
Qed.

Lemma C5_zero_velocity_arrow_shown_witness :
  let a := _estimatedVel (_render3DScene (Fin 0.000001) mountedRenderer initialState) in
  estimatedVelX initialState = Some (Fin 0) /\
  estimatedVelY initialState = Some (Fin 0) /\
  visible (arrow a) = true /\
  quaternion (arrow a) = Quaternion.mk (Fin 0) (Fin 0) (Fin 0) (Fin (cos (PI / 4))).
Proof.
  intros a. split; [reflexivity |]. split; [reflexivity |].
  destruct (C5_zero_velocity_arrow_shown (Fin 0.000001) mountedRenderer initialState
              (Fin 0) (Fin 0) eq_refl eq_refl) as [Hshown Hzero].
  split; [exact Hshown |].
  exact (proj1 (proj2 (Hzero length_zeroVector))).
Defined.

(** C5 as stated fails: in the initial state both estimated-velocity
    components are present and the vector has zero length, and the arrow is
    shown. *)
Lemma C5_counterexample :
  estimatedVelX initialState = Some (Fin 0) /\
  estimatedVelY initialState = Some (Fin 0) /\
  Vector3.length (Vector3.mk (Fin 0) (Fin 0) (Fin 0)) = Fin 0 /\
  visible (arrow (_estimatedVel
                    (_render3DScene (Fin 0.000001) mountedRenderer initialState))) = true.
Proof.
  split; [reflexivity |]. split; [reflexivity |]. split; [apply length_zeroVector |].
  reflexivity.
Qed.

(** ** Field resolution and visibility *)

(** How [_receiveMessage] fills the aliased fields and the obstacle radius. *)
Lemma receive_fields (state : gmap string json) (s : ModelState) :
  _receiveMessage state = Some s ->
  Forall (fun '(current, legacy, value) =>
            exists d : number,
              number_of (nullish (legacy_alias state current legacy) (JNumber d))
              = Some value)
         (legacy_fields s) /\
  number_of (nullish (state !! "obstacle_radius") (JNumber (Fin 0.0)))
  = Some (obstacleRadius s).
Proof.
  intros H. receive_inv H. split; [| reflexivity].
  unfold legacy_fields. cbn [roll pitch obstaclePosX obstaclePosY platePosX platePosY
                             platePosZ targetPosX targetPosY].
  repeat (apply Forall_cons; split; [eexists; eassumption |]).
  apply Forall_nil. exact I.
Qed.





(** A parsed number that passed the type check is not NaN. *)
Lemma parsed_obstacle_radius (state : gmap string json) (s : ModelState) :
  parsed state -> _receiveMessage state = Some s -> obstacleRadius s <> NaN.
Proof.
  intros Hparsed Hs. destruct (receive_fields state s Hs) as [_ Hr].
  specialize (Hparsed "obstacle_radius"%string).
  destruct (state !! "obstacle_radius"%string) as [[| b | x | str | items | members] |];
    cbn in Hr; try discriminate; injection Hr as <-; congruence.
Qed.

Lemma processed_obstacle_radius (s : ModelState) :
  processed s -> obstacleRadius s <> NaN.
Proof.
  intros [-> | (state & Hparsed & Hs)].
  - discriminate.
  - now apply (parsed_obstacle_radius state).
Qed.

Lemma not_gt_zero (r : number) :
  r <> NaN -> (r > Fin 0.0)%js = false <-> (r <= Fin 0)%js = true.
Proof.
  intros Hnan. unfold num_gt, num_le, num_lt, num_eq.
  destruct r as [a | | |]; try contradiction;
    try (cbn [orb]; split; intros H; (discriminate H || reflexivity)).
  unfold Rltb, Reqb.
  destruct (Rlt_dec 0.0 a), (Rlt_dec a 0), (Req_dec_T a 0);
    cbn [orb]; split; intros H; try reflexivity; try discriminate; lra.
Qed.

Lemma both_zero (x y : number) :
  (x !== Fin 0)%js || (y !== Fin 0)%js = false <-> x = Fin 0 /\ y = Fin 0.
Proof.
  unfold num_neq. rewrite orb_false_iff, !negb_false_iff.
  assert (Hz : forall n, (n === Fin 0)%js = true <-> n = Fin 0).
  { intros [a | | |]; cbn; try (split; discriminate).
    rewrite Reqb_eq. split; [now intros -> | now intros [= ->]]. }
  now rewrite !Hz.
Qed.

(** C7: for every processed state, the target is hidden exactly when both
    target coordinates are 0, the obstacle is hidden exactly when its radius
    is at most 0, and the estimated-ball ring is shown exactly when the
    estimated X, Y and radius are all present. *)
Theorem C7_visibility_rules (EPS : number) (this : MoabRenderer) (s : ModelState) :
  processed s ->
  let scene := _render3DScene EPS this s in
  (visible (_target scene) = false <-> targetPosX s = Fin 0 /\ targetPosY s = Fin 0) /\
  (visible (_obstacle scene) = false <-> (obstacleRadius s <= Fin 0)%js = true) /\
  (visible (_estimatedPos scene) = true <->
   estimatedPosX s <> None /\ estimatedPosY s <> None /\ estimatedRadius s <> None).
Proof.
  intros Hs scene. unfold scene, _render3DScene.
  cbn [_target _obstacle _estimatedPos set_visible visible Vector3.x Vector3.y].
  split; [| split].
  - apply both_zero.
  - apply not_gt_zero. now apply processed_obstacle_radius.
  - destruct (estimatedPosX s), (estimatedPosY s), (estimatedRadius s); cbn;
      split; try discriminate; try (intros (? & ? & ?); congruence);
      intros _; repeat split; discriminate.
Qed.

Lemma parsed_empty : parsed ∅.
Proof. intros key. now rewrite lookup_empty. Qed.

Lemma parsed_insert (state : gmap string json) (key : string) (v : json) :
  v <> JNumber NaN -> parsed state -> parsed (<[key := v]> state).
Proof.
  intros Hv Hstate k. destruct (decide (key = k)) as [-> | Hne].
  - rewrite lookup_insert_eq. congruence.
  - rewrite lookup_insert_ne by assumption. apply Hstate.
Qed.

Lemma C7_visibility_rules_witness :
  let state : gmap string json :=
    <[ "target_x" := JNumber (Fin 0.01) ]>
      (<[ "obstacle_radius" := JNumber (Fin 0.005) ]>
         (<[ "estimated_x" := JNumber (Fin 0.02) ]> ∅)) in
  let s := state_after initialState state in
  let scene := _render3DScene (Fin 0.000001) mountedRenderer s in
  processed s /\
  (visible (_target scene) = false <-> targetPosX s = Fin 0 /\ targetPosY s = Fin 0) /\
  (visible (_obstacle scene) = false <-> (obstacleRadius s <= Fin 0)%js = true) /\
  (visible (_estimatedPos scene) = true <->
   estimatedPosX s <> None /\ estimatedPosY s <> None /\ estimatedRadius s <> None).
Proof.
  intros state s scene.
  assert (Hparsed : parsed state)
    by (repeat (apply parsed_insert; [discriminate |]); apply parsed_empty).
  assert (Hs : processed s) by (right; exists state; split; [exact Hparsed | reflexivity]).
  split; [exact Hs |].
  exact (C7_visibility_rules (Fin 0.000001) mountedRenderer s Hs).
Defined.

(** * Further properties of the code *)

(** ** The arm solver as a mechanism *)

Lemma cos_asin_ratio (v h c : R) :
  0 < c -> c * c = v * v + h * h -> cos (asin (v / c)) = Rabs h / c.
Proof.
  intros Hc Hsq.
  assert (Hr : -1 <= v / c <= 1) by (apply ratio_in_unit; [assumption | nra]).
  rewrite cos_asin by assumption.
  apply sqrt_lem_1.
  - unfold Rsqr. destruct Hr. nra.
  - apply Rmult_le_pos; [apply Rabs_pos | left; now apply Rinv_0_lt_compat].
  - unfold Rsqr. unfold Rdiv.
    assert (Hi : c * / c = 1) by (apply Rinv_r; lra).
    assert (Habs : Rabs h * Rabs h = h * h).
    { rewrite <- Rabs_mult. apply Rabs_pos_eq. nra. }
    replace (Rabs h * / c * (Rabs h * / c)) with ((Rabs h * Rabs h) * (/ c * / c)) by ring.
    rewrite Habs.
    replace (1 - v * / c * (v * / c)) with ((c * / c) * (c * / c) - v * v * (/ c * / c))
      by (rewrite Hi; ring).
    replace (c * / c * (c * / c)) with ((c * c) * (/ c * / c)) by ring.
    rewrite Hsq. ring.
Qed.

Lemma reach_example : 0 < hypot 0.055 0 /\ hypot 0.055 0 <= lower_arm + upper_arm.
Proof. rewrite hypot_axis by lra. unfold lower_arm, upper_arm. lra. Qed.

(** X1: within reach, the raw servo angle ([2 PI] minus the returned servo
    angle) is the direction of the lower link: the elbow it gives lies at
    distance [b] of the contact point [(h, v)], in both branches on the sign
    of [h]. *)
Theorem arm_elbow_reaches_contact (v h link servo : R) :
  let c := hypot v h in
  0 < c -> c <= lower_arm + upper_arm ->
  _anglesForArmJoints (Fin v) (Fin h) = {| theta_link := Fin link; theta_servo := Fin servo |} ->
  let phi := 2 * PI - servo in
  (h - lower_arm * cos phi) ^ 2 + (v - lower_arm * sin phi) ^ 2 = upper_arm ^ 2.
Proof.
  intros c Hc Hreach Hres phi.
  rewrite solver_in_reach in Hres by assumption. fold c in Hres.
  apply (f_equal theta_servo) in Hres. cbn [theta_servo] in Hres.
  pose proof (hypot_sqr v h) as Hsq. fold c in Hsq.
  set (y := (lower_arm ^ 2 + c ^ 2 - upper_arm ^ 2) / (2 * lower_arm * c)) in *.
  assert (Hservo : 2 * PI - (if Rleb 0 h then asin (v / c) - acos y
                             else PI - (asin (v / c) + acos y)) = servo)
    by congruence.
  clear Hres.
  assert (Hy : -1 <= y <= 1).
  { unfold y, lower_arm, upper_arm in *. apply ratio_in_unit; nra. }
  assert (Hr : -1 <= v / c <= 1) by (apply ratio_in_unit; [assumption | nra]).
  assert (Hcy : 2 * lower_arm * (c * y) = lower_arm ^ 2 + c ^ 2 - upper_arm ^ 2).
  { unfold y, lower_arm, upper_arm in *. field. lra. }
  pose proof (cos_asin_ratio v h c Hc Hsq) as Hcos.
  pose proof (sin_asin (v / c) Hr) as Hsin.
  pose proof (cos_acos y Hy) as Hcy'.
  assert (Hic : c * / c = 1) by (apply Rinv_r; lra).
  clearbody y.
  assert (Hphi : phi = if Rleb 0 h then asin (v / c) - acos y
                       else PI - (asin (v / c) + acos y))
    by (unfold phi; rewrite <- Hservo; ring).
  assert (Hdot : h * cos phi + v * sin phi = c * y).
  { rewrite Hphi. unfold Rleb. destruct (Rle_dec 0 h) as [Hh | Hh].
    - rewrite cos_minus, sin_minus, Hcos, Hsin, Hcy'.
      rewrite Rabs_pos_eq by assumption. unfold Rdiv.
      replace (h * (h * / c * y + v * / c * sin (acos y)) +
               v * (v * / c * y - h * / c * sin (acos y)))
        with ((h * h + v * v) * / c * y) by ring.
      replace (h * h + v * v) with (c * c) by lra.
      replace (c * c * / c * y) with (c * (c * / c) * y) by ring.
      rewrite Hic. ring.
    - rewrite Rtrigo_facts.cos_pi_minus, Rtrigo_facts.sin_pi_minus.
      rewrite cos_plus, sin_plus, Hcos, Hsin, Hcy'.
      rewrite Rabs_left by lra. unfold Rdiv.
      replace (h * - (- h * / c * y - v * / c * sin (acos y)) +
               v * (v * / c * y + - h * / c * sin (acos y)))
        with ((h * h + v * v) * / c * y) by ring.
      replace (h * h + v * v) with (c * c) by lra.
      replace (c * c * / c * y) with (c * (c * / c) * y) by ring.
      rewrite Hic. ring. }
  pose proof (sin2_cos2 phi) as Hunit. unfold Rsqr in Hunit.
  replace ((h - lower_arm * cos phi) ^ 2 + (v - lower_arm * sin phi) ^ 2)
    with ((h * h + v * v) - 2 * lower_arm * (h * cos phi + v * sin phi)
          + lower_arm ^ 2 * (sin phi * sin phi + cos phi * cos phi)) by ring.
  rewrite Hdot, Hunit, Hcy. lra.
Qed.

Lemma arm_elbow_reaches_contact_witness :
  exists link servo : R,
    _anglesForArmJoints (Fin 0.055) (Fin 0) =
      {| theta_link := Fin link; theta_servo := Fin servo |} /\
    (0 - lower_arm * cos (2 * PI - servo)) ^ 2 +
    (0.055 - lower_arm * sin (2 * PI - servo)) ^ 2 = upper_arm ^ 2.
Proof.
  destruct reach_example as [Hpos Hreach].
  eexists _, _. split.
  - apply solver_in_reach; assumption.
  - refine (arm_elbow_reaches_contact 0.055 0 _ _ Hpos Hreach _).
    apply solver_in_reach; assumption.
Defined.

(** X2: within reach, the returned link angle lies between [PI] and [2 PI],
    and the interior elbow angle [link - PI] obeys the law of cosines for the
    triangle of sides [a], [b], [c]. *)
Theorem arm_link_law_of_cosines (v h link servo : R) :
  let c := hypot v h in
  0 < c -> c <= lower_arm + upper_arm ->
  _anglesForArmJoints (Fin v) (Fin h) = {| theta_link := Fin link; theta_servo := Fin servo |} ->
  PI <= link <= 2 * PI /\
  c ^ 2 = lower_arm ^ 2 + upper_arm ^ 2 - 2 * lower_arm * upper_arm * cos (link - PI).
Proof.
  intros c Hc Hreach Hres.
  rewrite solver_in_reach in Hres by assumption. fold c in Hres.
  apply (f_equal theta_link) in Hres. cbn [theta_link] in Hres.
  pose proof (hypot_sqr v h) as Hsq. fold c in Hsq.
  set (y := (lower_arm ^ 2 + upper_arm ^ 2 - c ^ 2) / (2 * lower_arm * upper_arm)) in *.
  assert (Hlink : PI + acos y = link) by congruence. clear Hres.
  assert (Hy : -1 <= y <= 1).
  { unfold y, lower_arm, upper_arm in *. apply ratio_in_unit; nra. }
  assert (Hcy : 2 * lower_arm * upper_arm * y = lower_arm ^ 2 + upper_arm ^ 2 - c ^ 2).
  { unfold y, lower_arm, upper_arm. field; lra. }
  pose proof (acos_bound y) as Hb. pose proof (cos_acos y Hy) as Hcos.
  split; [lra |].
  replace (link - PI) with (acos y) by lra. rewrite Hcos. lra.
Qed.

Lemma arm_link_law_of_cosines_witness :
  exists link servo : R,
    _anglesForArmJoints (Fin 0.055) (Fin 0) =
      {| theta_link := Fin link; theta_servo := Fin servo |} /\
    PI <= link <= 2 * PI.
Proof.
  destruct reach_example as [Hpos Hreach].
  eexists _, _. split.
  - apply solver_in_reach; assumption.
  - refine (proj1 (arm_link_law_of_cosines 0.055 0 _ _ Hpos Hreach _)).
    apply solver_in_reach; assumption.
Defined.

Lemma acos_nonneg_le_half_pi (x : R) : 0 <= x <= 1 -> acos x <= PI / 2.
Proof.
  intros Hx. destruct (Rle_dec (acos x) (PI / 2)) as [H | H]; [assumption |].
  exfalso. pose proof (acos_bound x) as Hb. pose proof PI_RGT_0 as Hpi.
  assert (Hneg : cos (acos x) < 0) by (apply cos_lt_0; lra).
  rewrite cos_acos in Hneg by lra. lra.
Qed.

(** The interior angle opposite the base [2 a x] of an isosceles triangle
    with legs [a]. *)
Lemma acos_isosceles (x : R) : 0 <= x <= 1 -> acos (1 - 2 * x * x) = PI - 2 * acos x.
Proof.
  intros Hx. pose proof (acos_bound x) as Hb.
  pose proof (acos_nonneg_le_half_pi x Hx) as Hh.
  rewrite <- (acos_cos (PI - 2 * acos x)) by lra.
  f_equal. rewrite Rtrigo_facts.cos_pi_minus, cos_2a_cos, cos_acos by lra. ring.
Qed.

(** X3: with the equal links of the source the triangle
    shoulder-elbow-contact is isosceles, which ties the two returned angles
    together through the elevation [asin (v / c)] of the contact point. *)
Theorem arm_angles_isosceles (v h link servo : R) :
  let c := hypot v h in
  0 < c -> c <= lower_arm + upper_arm ->
  _anglesForArmJoints (Fin v) (Fin h) = {| theta_link := Fin link; theta_servo := Fin servo |} ->
  link + 2 * servo =
    if Rleb 0 h then 6 * PI - 2 * asin (v / c) else 4 * PI + 2 * asin (v / c).
Proof.
  intros c Hc Hreach Hres.
  rewrite solver_in_reach in Hres by assumption. fold c in Hres.
  pose proof (f_equal theta_link Hres) as Hl. cbn [theta_link] in Hl.
  pose proof (f_equal theta_servo Hres) as Hs. cbn [theta_servo] in Hs.
  clear Hres. unfold lower_arm, upper_arm in *.
  set (x := c / (2 * 0.055)).
  assert (Hx : 0 <= x <= 1).
  { unfold x. split.
    - apply Rmult_le_pos; [lra | left; apply Rinv_0_lt_compat; lra].
    - apply (ratio_in_unit c (2 * 0.055)); lra. }
  assert (Hlarg : (0.055 ^ 2 + 0.055 ^ 2 - c ^ 2) / (2 * 0.055 * 0.055) = 1 - 2 * x * x)
    by (unfold x; field; lra).
  assert (Hsarg : (0.055 ^ 2 + c ^ 2 - 0.055 ^ 2) / (2 * 0.055 * c) = x)
    by (unfold x; field; lra).
  rewrite Hlarg in Hl. rewrite Hsarg in Hs. rewrite acos_isosceles in Hl by assumption.
  assert (Hl' : PI + (PI - 2 * acos x) = link) by congruence.
  destruct (Rleb 0 h).
  - assert (Hs' : 2 * PI - (asin (v / c) - acos x) = servo) by congruence. lra.
  - assert (Hs' : 2 * PI - (PI - (asin (v / c) + acos x)) = servo) by congruence. lra.
Qed.

Lemma arm_angles_isosceles_witness :
  exists link servo : R,
    _anglesForArmJoints (Fin 0.055) (Fin 0) =
      {| theta_link := Fin link; theta_servo := Fin servo |} /\
    link + 2 * servo =
      if Rleb 0 0 then 6 * PI - 2 * asin (0.055 / hypot 0.055 0)
      else 4 * PI + 2 * asin (0.055 / hypot 0.055 0).
Proof.
  destruct reach_example as [Hpos Hreach].
  eexists _, _. split.
  - apply solver_in_reach; assumption.
  - refine (arm_angles_isosceles 0.055 0 _ _ Hpos Hreach _).
    apply solver_in_reach; assumption.
Defined.

(** ** When the solver answers numbers *)

Lemma add_NaN_r (x : number) : (x + NaN)%js = NaN.
Proof. now destruct x. Qed.

Lemma sub_NaN_r (x : number) : (x - NaN)%js = NaN.
Proof. now destruct x. Qed.

(** A hypotenuse that is not finite makes both acos arguments leave the
    domain. *)
Lemma solver_nonfinite_hypot (v h : number) :
  Math.sqrt (Math.pow v 2 + Math.pow h 2)%js = PosInf \/
  Math.sqrt (Math.pow v 2 + Math.pow h 2)%js = NaN ->
  _anglesForArmJoints v h = {| theta_link := NaN; theta_servo := NaN |}.
Proof.
  intros Hc. unfold _anglesForArmJoints. cbv zeta.
  destruct Hc as [-> | ->].
  - cbn [Math.pow num_mul num_add num_sub num_neg].
    rewrite Reqb_false by lra. rewrite Rltb_true by lra. cbn [infinity num_div].
    rewrite Rltb_false by lra. cbn [infinity Math.acos num_add].
    rewrite sub_NaN_r, !add_NaN_r, sub_NaN_r.
    now destruct (h >= Fin 0)%js.
  - cbn [Math.pow num_mul num_add num_sub num_neg num_div Math.acos].
    assert (Hd : forall x, (x / NaN)%js = NaN) by (now intros []).
    rewrite !Hd. cbn [Math.asin Math.acos num_add num_sub num_neg].
    now destruct (h >= Fin 0)%js.
Qed.

Lemma hypot_of_nonfinite (v h : number) :
  (forall r, v <> Fin r) \/ (forall r, h <> Fin r) ->
  Math.sqrt (Math.pow v 2 + Math.pow h 2)%js = PosInf \/
  Math.sqrt (Math.pow v 2 + Math.pow h 2)%js = NaN.
Proof.
  intros H.
  destruct v as [a | | |], h as [b | | |]; cbn; auto;
    destruct H as [H | H]; exfalso; now apply (H _ eq_refl).
Qed.

(** X4: the solver answers two numbers exactly for finite inputs whose
    contact point is off the shoulder joint and within reach; in every other
    case an angle is NaN. *)
Theorem arm_angles_defined_iff (v h : number) :
  (exists link servo : R,
     _anglesForArmJoints v h = {| theta_link := Fin link; theta_servo := Fin servo |}) <->
  (exists v' h' : R,
     v = Fin v' /\ h = Fin h' /\ 0 < hypot v' h' <= lower_arm + upper_arm).
Proof.
  split.
  - intros (link & servo & Hres).
    destruct v as [v' | | |]; [destruct h as [h' | | |] | | |];
      try (rewrite solver_nonfinite_hypot in Hres
             by (apply hypot_of_nonfinite; (left + right); discriminate);
           discriminate).
    exists v', h'. split; [reflexivity |]. split; [reflexivity |].
    destruct (Rle_dec (hypot v' h') (lower_arm + upper_arm)) as [Hle | Hgt].
    + split; [| assumption].
      destruct (Rle_lt_or_eq_dec 0 (hypot v' h') (sqrt_pos _)) as [Hpos | Hzero];
        [assumption |].
      symmetry in Hzero. destruct (hypot_zero_inv v' h' Hzero) as [-> ->].
      rewrite solver_at_origin in Hres. discriminate.
    + rewrite solver_beyond_reach in Hres by lra. discriminate.
  - intros (v' & h' & -> & -> & Hpos & Hreach).
    rewrite solver_in_reach by assumption. eauto.
Qed.

(** ** Orienting one arm *)

(** X5: an arm that lacks one of its two named children is left as it is;
    and the plate's X coordinate never enters the arm angles. *)
Theorem orientArm_ignores
    (arm : ArmGroup) (px px' py pz : number) (plateQ : Quaternion.t) :
  (PLATE_ARM arm = None \/ SERVO_ARM arm = None ->
   _orientArm arm (Vector3.mk px py pz) plateQ = arm) /\
  _orientArm arm (Vector3.mk px py pz) plateQ = _orientArm arm (Vector3.mk px' py pz) plateQ.
Proof.
  unfold _orientArm. split.
  - intros [H | H]; rewrite H; [| destruct (PLATE_ARM arm)]; reflexivity.
  - destruct (PLATE_ARM arm), (SERVO_ARM arm); reflexivity.
Qed.


(** ** The plate orientation is always a rotation *)

(** X6: for every finite plate normal, of any length, the plate orientation
    is a unit quaternion; a normal along the up axis (the zero vector
    included) leaves the plate unrotated. *)
Theorem plate_quaternion_unit (e : R) (s : ModelState) (nx ny nz : R) :
  0 < e ->
  plateNor s = Vector3.mk (Fin nx) (Fin ny) (Fin nz) ->
  unit_quaternion (plateQ_of (Fin e) s) /\
  (nx = 0 -> ny = 0 -> e <= 1 + nz -> plateQ_of (Fin e) s = Quaternion.identity).
Proof.
  intros He Hn.
  change (plateQ_of (Fin e) s)
    with (Quaternion.setFromUnitVectors (Fin e) zAxis (plateNor s)).
  rewrite Hn.
  destruct (Rlt_dec (1 + nz) e) as [Hlt | Hge].
  - rewrite fallback_quaternion by assumption. split.
    + exists 0, (-1), 0, 0. split; [reflexivity | ring].
    + intros _ _ Hle. lra.
  - rewrite shortest_arc by lra. cbv zeta.
    set (S := nx * nx + ny * ny + (1 + nz) * (1 + nz)).
    assert (HS : 0 < S) by (unfold S; nra).
    assert (HL : 0 < sqrt S) by now apply sqrt_lt_R0.
    assert (HLL : sqrt S * sqrt S = S) by (apply sqrt_sqrt; lra).
    split.
    + eexists _, _, _, _. split; [reflexivity |].
      set (L := sqrt S) in *.
      replace (- ny * (1 / L) * (- ny * (1 / L)) + nx * (1 / L) * (nx * (1 / L)) +
               0 * (1 / L) * (0 * (1 / L)) + (1 + nz) * (1 / L) * ((1 + nz) * (1 / L)))
        with (S * (1 / L * (1 / L))) by (unfold S; ring).
      rewrite <- HLL. field. lra.
    + intros -> -> _.
      assert (Hroot : sqrt S = 1 + nz).
      { unfold S. replace (0 * 0 + 0 * 0 + (1 + nz) * (1 + nz)) with ((1 + nz) * (1 + nz)) by ring.
        apply sqrt_square. lra. }
      rewrite Hroot. unfold Quaternion.identity. f_equal; f_equal; field; lra.
Qed.

Lemma plate_quaternion_unit_witness :
  let long := state_after initialState
                {[ "plate_nor_x" := JNumber (Fin 2); "plate_nor_z" := JNumber (Fin 0) ]} in
  let zero := state_after initialState {[ "plate_nor_z" := JNumber (Fin 0) ]} in
  0 < 0.000001 /\
  plateNor long = Vector3.mk (Fin 2) (Fin 0.0) (Fin 0) /\
  unit_quaternion (plateQ_of (Fin 0.000001) long) /\
  plateNor zero = Vector3.mk (Fin 0.0) (Fin 0.0) (Fin 0) /\
  plateQ_of (Fin 0.000001) zero = Quaternion.identity.
Proof.
  intros long zero.
  assert (He : 0 < 0.000001) by lra.
  assert (Hlong : plateNor long = Vector3.mk (Fin 2) (Fin 0.0) (Fin 0)) by reflexivity.
  assert (Hzero : plateNor zero = Vector3.mk (Fin 0.0) (Fin 0.0) (Fin 0)) by reflexivity.
  split; [exact He |]. split; [exact Hlong |]. split.
  - exact (proj1 (plate_quaternion_unit 0.000001 long 2 0.0 0 He Hlong)).
  - split; [exact Hzero |].
    apply (proj2 (plate_quaternion_unit 0.000001 zero 0.0 0.0 0 He Hzero)); lra.
Defined.

(** ** The joystick *)

(** X7: the joystick orientation is the rotation by [pitch * PI / 12] about
    X followed by the rotation by [roll * PI / 12] about Y, whatever the
    orientation was before; it is a unit quaternion, and the other
    properties of the joystick are kept. *)
Theorem joystick_pose (EPS : number) (this : MoabRenderer) (s : ModelState)
    (joystick : Object3D) (p r : R) :
  _joystick this = Some joystick ->
  pitch s = Fin p -> roll s = Fin r ->
  let a := p * PI / 12 / 2 in
  let b := r * PI / 12 / 2 in
  let q := Quaternion.mk (Fin (sin a * cos b)) (Fin (cos a * sin b))
             (Fin (sin a * sin b)) (Fin (cos a * cos b)) in
  _joystick (_render3DScene EPS this s) =
    Some (mkObject3D (position joystick) q (scale joystick) (visible joystick)) /\
  unit_quaternion q.
Proof.
  intros Hj Hp Hr a b q. split.
  - unfold _render3DScene. cbn [_joystick]. rewrite Hj, Hp, Hr.
    unfold rotateY, rotateX, rotateOnAxis, setRotationFromAxisAngle, set_quaternion.
    cbn [position quaternion scale visible]. f_equal. f_equal.
    unfold Quaternion.multiply, Quaternion.multiplyQuaternions, Quaternion.setFromAxisAngle,
      Math.PI.
    cbn [num_mul]. rewrite !div_Fin by lra.
    cbn [Math.sin Math.cos Vector3.x Vector3.y Vector3.z Quaternion.x Quaternion.y
         Quaternion.z Quaternion.w num_mul num_add num_sub num_neg].
    replace (0 / 2) with 0 by lra. rewrite sin_0, cos_0.
    fold a b. unfold q. f_equal; f_equal; ring.
  - exists (sin a * cos b), (cos a * sin b), (sin a * sin b), (cos a * cos b).
    split; [reflexivity |].
    pose proof (sin2_cos2 a) as Ha. pose proof (sin2_cos2 b) as Hb.
    unfold Rsqr in Ha, Hb. nra.
Qed.

Lemma joystick_pose_witness :
  let s := state_after initialState
             {[ "pitch" := JNumber (Fin 1); "roll" := JNumber (Fin 0.5) ]} in
  let a := 1 * PI / 12 / 2 in
  let b := 0.5 * PI / 12 / 2 in
  let q := Quaternion.mk (Fin (sin a * cos b)) (Fin (cos a * sin b))
             (Fin (sin a * sin b)) (Fin (cos a * cos b)) in
  _joystick loadedRenderer = Some newObject3D /\
  pitch s = Fin 1 /\ roll s = Fin 0.5 /\
  _joystick (_render3DScene (Fin 0.000001) loadedRenderer s) =
    Some (mkObject3D (position newObject3D) q (scale newObject3D) (visible newObject3D)) /\
  unit_quaternion q.
Proof.
  intros s a b q.
  split; [reflexivity |]. split; [reflexivity |]. split; [reflexivity |].
  exact (joystick_pose (Fin 0.000001) loadedRenderer s newObject3D 1 0.5
           eq_refl eq_refl eq_refl).
Defined.

(** ** The render pass as a state update *)

Lemma orientArm_idempotent (arm : ArmGroup) (platePos : Vector3.t) (plateQ : Quaternion.t) :
  _orientArm (_orientArm arm platePos plateQ) platePos plateQ = _orientArm arm platePos plateQ.
Proof.
  unfold _orientArm.
  destruct (PLATE_ARM arm) as [pa |] eqn:Hp, (SERVO_ARM arm) as [sa |] eqn:Hs;
    cbn [PLATE_ARM SERVO_ARM group]; rewrite ?Hp, ?Hs; reflexivity.
Qed.

(** X8: rendering the same state a second time changes nothing. *)
Theorem render_idempotent (EPS : number) (this : MoabRenderer) (s : ModelState) :
  _render3DScene EPS (_render3DScene EPS this s) s = _render3DScene EPS this s.
Proof.
  unfold _render3DScene at 1.
  set (scene := _render3DScene EPS this s).
  assert (Horig : _plateOrig scene = _plateOrig this) by reflexivity.
  assert (Hsurf : _plateSurfaceOrig scene = _plateSurfaceOrig this) by reflexivity.
  assert (HplatePos : platePos_of scene s = platePos_of this s) by reflexivity.
  assert (Hring : ballRingPos_of scene s = ballRingPos_of this s) by reflexivity.
  rewrite HplatePos, Hring, Hsurf, Horig.
  unfold scene, _render3DScene.
  cbn [_ball _target _obstacle _plate _joystick _estimatedPos _estimatedVel
       _armLeft _armCenter _armRight _plateOrig _plateSurfaceOrig].
  f_equal.
  - destruct (_plate this); reflexivity.
  - destruct (_joystick this); reflexivity.
  - destruct (estimatedPosX s), (estimatedPosY s), (estimatedRadius s); reflexivity.
  - destruct (estimatedVelX s), (estimatedVelY s); reflexivity.
  - destruct (_armLeft this); [| reflexivity]. now rewrite orientArm_idempotent.
  - destruct (_armCenter this); [| reflexivity]. now rewrite orientArm_idempotent.
  - destruct (_armRight this); [| reflexivity]. now rewrite orientArm_idempotent.
Qed.

Lemma orientArm_overwrites (arm : ArmGroup) (p1 p2 : Vector3.t) (q1 q2 : Quaternion.t) :
  _orientArm (_orientArm arm p1 q1) p2 q2 = _orientArm arm p2 q2.
Proof.
  unfold _orientArm.
  destruct (PLATE_ARM arm) as [pa |] eqn:Hp, (SERVO_ARM arm) as [sa |] eqn:Hs;
    cbn [PLATE_ARM SERVO_ARM group]; rewrite ?Hp, ?Hs; reflexivity.
Qed.

(** X9: when the new state carries a full estimate, the scene after
    rendering it does not depend on the states rendered before. *)
Theorem render_forgets_history
    (EPS : number) (this : MoabRenderer) (s1 s2 : ModelState) :
  is_Some (estimatedPosX s2) -> is_Some (estimatedPosY s2) ->
  is_Some (estimatedRadius s2) ->
  is_Some (estimatedVelX s2) -> is_Some (estimatedVelY s2) ->
  _render3DScene EPS (_render3DScene EPS this s1) s2 = _render3DScene EPS this s2.
Proof.
  intros [ex Hex] [ey Hey] [er Her] [vx Hvx] [vy Hvy].
  unfold _render3DScene at 1.
  set (scene := _render3DScene EPS this s1).
  assert (Horig : _plateOrig scene = _plateOrig this) by reflexivity.
  assert (Hsurf : _plateSurfaceOrig scene = _plateSurfaceOrig this) by reflexivity.
  assert (HplatePos : platePos_of scene s2 = platePos_of this s2) by reflexivity.
  assert (Hring : ballRingPos_of scene s2 = ballRingPos_of this s2) by reflexivity.
  rewrite HplatePos, Hring, Hsurf, Horig.
  unfold _render3DScene. rewrite Hex, Hey, Her, Hvx, Hvy.
  unfold scene, _render3DScene.
  cbn [_ball _target _obstacle _plate _joystick _estimatedPos _estimatedVel
       _armLeft _armCenter _armRight _plateOrig _plateSurfaceOrig].
  f_equal;
    try (destruct (_plate this); reflexivity);
    try (destruct (_joystick this); reflexivity);
    try (destruct (estimatedPosX s1), (estimatedPosY s1), (estimatedRadius s1);
         reflexivity);
    try (destruct (estimatedVelX s1), (estimatedVelY s1); reflexivity);
    try (destruct (_armLeft this); [rewrite orientArm_overwrites |]; reflexivity);
    try (destruct (_armCenter this); [rewrite orientArm_overwrites |]; reflexivity);
    try (destruct (_armRight this); [rewrite orientArm_overwrites |]; reflexivity).
Qed.

Lemma render_forgets_history_witness :
  let s1 := state_after initialState ∅ in
  is_Some (estimatedPosX initialState) /\ is_Some (estimatedPosY initialState) /\
  is_Some (estimatedRadius initialState) /\
  is_Some (estimatedVelX initialState) /\ is_Some (estimatedVelY initialState) /\
  _render3DScene (Fin 0.000001)
    (_render3DScene (Fin 0.000001) mountedRenderer s1) initialState =
  _render3DScene (Fin 0.000001) mountedRenderer initialState.
Proof.
  intros s1. repeat (split; [eexists; reflexivity |]).
  apply render_forgets_history; eexists; reflexivity.
Defined.

(** X10: a hidden indicator keeps the pose it had: only its visibility
    flag is written. *)
Theorem render_hidden_keeps_pose (EPS : number) (this : MoabRenderer) (s : ModelState) :
  (estimatedPosX s = None \/ estimatedPosY s = None \/ estimatedRadius s = None ->
   _estimatedPos (_render3DScene EPS this s) = set_visible (_estimatedPos this) false) /\
  (estimatedVelX s = None \/ estimatedVelY s = None ->
   _estimatedVel (_render3DScene EPS this s) =
     arrow_with (_estimatedVel this) (set_visible (arrow (_estimatedVel this)) false)).
Proof.
  unfold _render3DScene. cbn [_estimatedPos _estimatedVel]. split.
  - intros [H | [H | H]]; rewrite H;
      destruct (estimatedPosX s), (estimatedPosY s), (estimatedRadius s);
      try reflexivity; discriminate.
  - intros [H | H]; rewrite H;
      destruct (estimatedVelX s), (estimatedVelY s); try reflexivity; discriminate.
Qed.

(** X11: the render pass neither adds nor removes a part of the scene,
    keeps both plate origins, and leaves the transform of each arm group
    alone. *)
Theorem render_frame (EPS : number) (this : MoabRenderer) (s : ModelState) :
  let scene := _render3DScene EPS this s in
  _plateOrig scene = _plateOrig this /\
  _plateSurfaceOrig scene = _plateSurfaceOrig this /\
  (is_Some (_plate scene) <-> is_Some (_plate this)) /\
  (is_Some (_joystick scene) <-> is_Some (_joystick this)) /\
  group <$> _armLeft scene = group <$> _armLeft this /\
  group <$> _armCenter scene = group <$> _armCenter this /\
  group <$> _armRight scene = group <$> _armRight this.
Proof.
  assert (Harm : forall arm p q, group (_orientArm arm p q) = group arm).
  { intros arm p q. unfold _orientArm.
    destruct (PLATE_ARM arm), (SERVO_ARM arm); reflexivity. }
  intros scene. unfold scene, _render3DScene.
  cbn [_plateOrig _plateSurfaceOrig _plate _joystick _armLeft _armCenter _armRight].
  repeat split; try (destruct (_plate this); cbn; intros [? H]; (eauto || discriminate));
    try (destruct (_joystick this); cbn; intros [? H]; (eauto || discriminate)).
  - destruct (_armLeft this); cbn; [now rewrite Harm | reflexivity].
  - destruct (_armCenter this); cbn; [now rewrite Harm | reflexivity].
  - destruct (_armRight this); cbn; [now rewrite Harm | reflexivity].
Qed.

(** ** The estimated-velocity arrow *)

Lemma vector_length_Fin (x y z : R) :
  Vector3.length (Vector3.mk (Fin x) (Fin y) (Fin z)) = Fin (sqrt (x * x + y * y + z * z)).
Proof.
  unfold Vector3.length. cbn [Vector3.x Vector3.y Vector3.z num_mul num_add].
  apply sqrt_Fin. nra.
Qed.

Lemma vector_normalize_Fin (x y z : R) :
  0 < x * x + y * y + z * z ->
  Vector3.normalize (Vector3.mk (Fin x) (Fin y) (Fin z)) =
    let l := 1 / sqrt (x * x + y * y + z * z) in
    Vector3.mk (Fin (x * l)) (Fin (y * l)) (Fin (z * l)).
Proof.
  intros Hpos. unfold Vector3.normalize. rewrite vector_length_Fin.
  assert (HL : 0 < sqrt (x * x + y * y + z * z)) by now apply sqrt_lt_R0.
  unfold or_else, truthy. rewrite Reqb_false by lra. cbn [negb].
  unfold Vector3.divideScalar, Vector3.multiplyScalar.
  rewrite div_Fin by lra. reflexivity.
Qed.

(** [setDirection] away from the two poles: the arrow's rest axis (0,1,0) is
    turned onto a direction of unit length. *)
Lemma setDirection_points (a : ArrowHelper) (dx dy dz : R) :
  dx * dx + dy * dy + dz * dz = 1 ->
  -0.99999 <= dy <= 0.99999 ->
  applyQuaternion (Vector3.mk (Fin 0) (Fin 1) (Fin 0))
    (quaternion (arrow (setDirection a (Vector3.mk (Fin dx) (Fin dy) (Fin dz))))) =
  Vector3.mk (Fin dx) (Fin dy) (Fin dz).
Proof.
  intros Hunit Hdy.
  unfold setDirection, arrow_with, set_quaternion.
  cbn [arrow quaternion Vector3.x Vector3.y Vector3.z num_neg].
  unfold num_gt, num_lt. rewrite !Rltb_false by lra.
  assert (Hm2 : 0 < dz * dz + 0 * 0 + - dx * - dx) by nra.
  rewrite vector_normalize_Fin by assumption. cbv zeta.
  set (M := sqrt (dz * dz + 0 * 0 + - dx * - dx)).
  assert (HM : 0 < M) by now apply sqrt_lt_R0.
  assert (HMM : M * M = 1 - dy * dy) by (unfold M; rewrite sqrt_sqrt; nra).
  rewrite acos_Fin by lra.
  assert (Hsin : sin (acos dy) = M).
  { rewrite sin_acos by lra. apply sqrt_lem_1; unfold Rsqr; nra. }
  assert (Hcos : cos (acos dy) = dy) by (apply cos_acos; lra).
  unfold Quaternion.setFromAxisAngle. rewrite div_Fin by lra.
  set (t := acos dy / 2).
  assert (Ht : acos dy = 2 * t) by (unfold t; lra).
  rewrite Ht, sin_2a in Hsin. rewrite Ht, cos_2a in Hcos.
  pose proof (sin2_cos2 t) as Hsc. unfold Rsqr in Hsc.
  unfold applyQuaternion.
  cbn [Math.sin Math.cos Vector3.x Vector3.y Vector3.z Quaternion.x Quaternion.y
       Quaternion.z Quaternion.w num_mul num_add num_sub num_neg].
  assert (Hi : M * (1 / M) = 1) by (field; lra).
  set (i := 1 / M) in *. set (s := sin t) in *. set (c := cos t) in *.
  clearbody i s c. clear Ht t.
  assert (Hxz : dx * dx + dz * dz = M * M) by lra.
  f_equal; f_equal.
  - transitivity (dx * (M * i)); [| rewrite Hi; ring].
    rewrite <- Hsin. ring.
  - transitivity (c * c - s * s * ((M * i) * (M * i))); [| rewrite Hi; lra].
    transitivity (c * c - s * s * (i * i) * (dx * dx + dz * dz)); [ring |].
    rewrite Hxz. ring.
  - transitivity (dz * (M * i)); [| rewrite Hi; ring].
    rewrite <- Hsin. ring.
Qed.

Lemma max_Fin (x y : R) : Math.max (Fin x) (Fin y) = Fin (Rmax x y).
Proof.
  unfold Math.max, num_lt, Rltb, Rmax.
  destruct (Rlt_dec x y), (Rle_dec x y); try reflexivity; try lra.
  f_equal. lra.
Qed.

Lemma speed_example : sqrt (0.3 * 0.3 + 0.4 * 0.4) = 0.5.
Proof.
  replace (0.3 * 0.3 + 0.4 * 0.4) with (0.5 * 0.5) by lra. apply sqrt_square. lra.
Qed.

(** X12: the arrow is anchored on the ring position, its tip is at the
    speed (one second of travel), and its shaft is never shorter than
    0.0001. *)
Theorem velocity_arrow_length
    (EPS : number) (this : MoabRenderer) (s : ModelState) (vx vy : R) :
  estimatedVelX s = Some (Fin vx) ->
  estimatedVelY s = Some (Fin vy) ->
  let speed := sqrt (vx * vx + vy * vy) in
  let a := _estimatedVel (_render3DScene EPS this s) in
  position (arrow a) = ballRingPos_of this s /\
  cone_position_y a = Fin speed /\
  line_scale a = Vector3.mk (Fin 1) (Fin (Rmax 0.0001 (speed - 0.003))) (Fin 1) /\
  0.0001 <= Rmax 0.0001 (speed - 0.003).
Proof.
  intros HX HY speed a. unfold a, _render3DScene. cbn [_estimatedVel]. rewrite HX, HY.
  rewrite vector_length_Fin.
  replace (vx * vx + vy * vy + 0 * 0) with (vx * vx + vy * vy) by ring. fold speed.
  split; [reflexivity |]. split; [reflexivity |]. split.
  - cbn [arrow_with setLength line_scale num_sub num_neg num_add]. now rewrite max_Fin.
  - apply Rmax_l.
Qed.

Lemma velocity_arrow_length_witness :
  let s := state_after initialState
             (<[ "estimated_vel_x" := JNumber (Fin 0.3) ]>
                (<[ "estimated_vel_y" := JNumber (Fin 0.4) ]> ∅)) in
  let a := _estimatedVel (_render3DScene (Fin 0.000001) mountedRenderer s) in
  estimatedVelX s = Some (Fin 0.3) /\ estimatedVelY s = Some (Fin 0.4) /\
  cone_position_y a = Fin (sqrt (0.3 * 0.3 + 0.4 * 0.4)).
Proof.
  intros s a. split; [reflexivity |]. split; [reflexivity |].
  exact (proj1 (proj2 (velocity_arrow_length (Fin 0.000001) mountedRenderer s 0.3 0.4
                         eq_refl eq_refl))).
Defined.

(** X13: the arrow points along the estimated velocity: away from the two
    poles of [setDirection], its orientation turns the arrow's rest axis
    (0,1,0) onto the velocity scaled to unit length. *)
Theorem velocity_arrow_direction
    (EPS : number) (this : MoabRenderer) (s : ModelState) (vx vy : R) :
  estimatedVelX s = Some (Fin vx) ->
  estimatedVelY s = Some (Fin vy) ->
  let speed := sqrt (vx * vx + vy * vy) in
  0 < speed ->
  -0.99999 <= vy / speed <= 0.99999 ->
  applyQuaternion (Vector3.mk (Fin 0) (Fin 1) (Fin 0))
    (quaternion (arrow (_estimatedVel (_render3DScene EPS this s)))) =
  Vector3.mk (Fin (vx / speed)) (Fin (vy / speed)) (Fin 0).
Proof.
  intros HX HY speed Hspeed Hpole.
  assert (Hsq : 0 < vx * vx + vy * vy).
  { destruct (Rle_lt_or_eq_dec 0 (vx * vx + vy * vy)) as [H | H]; [nra | assumption |].
    exfalso. unfold speed in Hspeed. rewrite <- H, sqrt_0 in Hspeed. lra. }
  assert (Hss : speed * speed = vx * vx + vy * vy) by (apply sqrt_sqrt; lra).
  unfold _render3DScene. cbn [_estimatedVel]. rewrite HX, HY.
  cbn [arrow_with setLength arrow set_visible quaternion].
  rewrite vector_normalize_Fin by nra. cbv zeta.
  replace (vx * vx + vy * vy + 0 * 0) with (vx * vx + vy * vy) by ring. fold speed.
  assert (Hi : speed * (1 / speed) = 1) by (field; lra).
  rewrite setDirection_points.
  - f_equal; f_equal; unfold Rdiv; ring.
  - replace (vx * (1 / speed) * (vx * (1 / speed)) + vy * (1 / speed) * (vy * (1 / speed)) +
             0 * (1 / speed) * (0 * (1 / speed)))
      with ((vx * vx + vy * vy) * ((1 / speed) * (1 / speed))) by ring.
    rewrite <- Hss.
    replace (speed * speed * (1 / speed * (1 / speed)))
      with ((speed * (1 / speed)) * (speed * (1 / speed))) by ring.
    rewrite Hi. ring.
  - replace (vy * (1 / speed)) with (vy / speed) by (unfold Rdiv; ring). assumption.
Qed.

Lemma velocity_arrow_direction_witness :
  let s := state_after initialState
             (<[ "estimated_vel_x" := JNumber (Fin 0.3) ]>
                (<[ "estimated_vel_y" := JNumber (Fin 0.4) ]> ∅)) in
  estimatedVelX s = Some (Fin 0.3) /\ estimatedVelY s = Some (Fin 0.4) /\
  0 < sqrt (0.3 * 0.3 + 0.4 * 0.4) /\
  -0.99999 <= 0.4 / sqrt (0.3 * 0.3 + 0.4 * 0.4) <= 0.99999 /\
  applyQuaternion (Vector3.mk (Fin 0) (Fin 1) (Fin 0))
    (quaternion
       (arrow (_estimatedVel (_render3DScene (Fin 0.000001) mountedRenderer s)))) =
  Vector3.mk (Fin (0.3 / sqrt (0.3 * 0.3 + 0.4 * 0.4)))
             (Fin (0.4 / sqrt (0.3 * 0.3 + 0.4 * 0.4))) (Fin 0).
Proof.
  intros s.
  assert (Hpos : 0 < sqrt (0.3 * 0.3 + 0.4 * 0.4)) by (rewrite speed_example; lra).
  assert (Hpole : -0.99999 <= 0.4 / sqrt (0.3 * 0.3 + 0.4 * 0.4) <= 0.99999)
    by (rewrite speed_example; lra).
  split; [reflexivity |]. split; [reflexivity |]. split; [exact Hpos |].
  split; [exact Hpole |].
  exact (velocity_arrow_direction (Fin 0.000001) mountedRenderer s 0.3 0.4
           eq_refl eq_refl Hpos Hpole).
Defined.

(** ** The calibration marker *)

Lemma markerPos_Fin (index : nat) :
  markerPos index =
    let t := PI / 2 + INR index * 2 * PI / 3 in
    Vector3.mk (Fin (0.012 * cos t)) (Fin (0.012 * sin t)) (Fin 0.004).
Proof.
  unfold markerPos, markerMoveAngle, Math.PI. cbn [num_mul].
  rewrite !div_Fin by lra. reflexivity.
Qed.

Lemma marker_angles :
  cos (PI / 2 + INR 0 * 2 * PI / 3) = 0 /\ sin (PI / 2 + INR 0 * 2 * PI / 3) = 1 /\
  cos (PI / 2 + INR 1 * 2 * PI / 3) = - (sqrt 3 / 2) /\
  sin (PI / 2 + INR 1 * 2 * PI / 3) = - (1 / 2) /\
  cos (PI / 2 + INR 2 * 2 * PI / 3) = sqrt 3 / 2 /\
  sin (PI / 2 + INR 2 * 2 * PI / 3) = - (1 / 2).
Proof.
  assert (H0 : INR 0 * 2 * PI / 3 = 0) by (cbn; lra).
  assert (H1 : INR 1 * 2 * PI / 3 = 2 * (PI / 3)) by (cbn; lra).
  assert (H2 : INR 2 * 2 * PI / 3 = 2 * (2 * (PI / 3))) by (cbn; lra).
  pose proof cos_PI2 as Hc. pose proof sin_PI2 as Hs.
  pose proof cos_2PI3 as Hc3. pose proof sin_2PI3 as Hs3.
  rewrite H0, H1, H2, !cos_plus, !sin_plus, Hc, Hs.
  rewrite (sin_2a (2 * (PI / 3))), (cos_2a_cos (2 * (PI / 3))).
  rewrite Hc3, Hs3, sin_0, cos_0.
  repeat split; lra.
Qed.

(** X14: the three marker meshes sit at height 0.004 on a circle of radius
    0.012 around the plate centre, and the centre is their centroid. *)
Theorem calibration_marker_layout :
  (forall p, p ∈ _calibrationMarker ->
     exists x y : R,
       p = Vector3.mk (Fin x) (Fin y) (Fin 0.004) /\ x * x + y * y = 0.012 * 0.012) /\
  foldr Vector3.add (Vector3.mk (Fin 0) (Fin 0) (Fin 0)) _calibrationMarker =
    Vector3.mk (Fin 0) (Fin 0) (Fin (3 * 0.004)).
Proof.
  split.
  - intros p Hp. unfold _calibrationMarker in Hp. cbn [map] in Hp.
    assert (Hi : exists i, p = markerPos i)
      by (repeat (apply elem_of_cons in Hp as [-> | Hp]; [eauto |]);
          now apply elem_of_nil in Hp).
    destruct Hi as [i ->]. rewrite markerPos_Fin. cbv zeta.
    eexists _, _. split; [reflexivity |].
    pose proof (sin2_cos2 (PI / 2 + INR i * 2 * PI / 3)) as H. unfold Rsqr in H. nra.
  - unfold _calibrationMarker. cbn [map foldr]. rewrite !markerPos_Fin. cbv zeta.
    destruct marker_angles as (-> & -> & -> & -> & -> & ->).
    unfold Vector3.add. cbn. f_equal; f_equal; lra.
Qed.

(** X15: each ring arc spans a third of the circle, is centred on the
    direction of its mesh, and starts where the previous one ends. *)
Theorem calibration_marker_arcs (i : nat) :
  exists start len move : R,
    markerArcStart i = Fin start /\ markerArcLength = Fin len /\
    markerMoveAngle i = Fin move /\
    3 * len = 2 * PI /\
    start + len / 2 = move /\
    markerArcStart (S i) = Fin (start + len).
Proof.
  unfold markerArcStart, markerArcLength, markerMoveAngle, Math.PI.
  cbn [num_mul]. rewrite !div_Fin by lra. cbn [num_add num_sub num_neg].
  eexists _, _, _. repeat split; try reflexivity; try lra.
  f_equal. rewrite S_INR. lra.
Qed.

(** ** Gamepad axis scaling *)

Lemma gamepad_scale_Fin (x : R) :
  _applyNonlinearScaleToGamepadAxis (Fin x) =
    Fin (if Rltb x 0 then - (Rabs x ^ 4 * 0.5) else Rabs x ^ 4 * 0.5).
Proof.
  unfold _applyNonlinearScaleToGamepadAxis.
  cbn [Math.abs Math.pow num_mul num_lt].
  destruct (Rltb x 0); cbn [num_neg]; f_equal; ring.
Qed.

(** X16: the axis scaling is an odd function, on every number. *)
Theorem gamepad_scale_odd (value : number) :
  _applyNonlinearScaleToGamepadAxis (- value)%js =
    (- _applyNonlinearScaleToGamepadAxis value)%js.
Proof.
  destruct value as [x | | |]; try reflexivity;
    try (unfold _applyNonlinearScaleToGamepadAxis;
         cbn [num_neg Math.abs Math.pow num_mul num_lt];
         rewrite Reqb_false by lra; rewrite Rltb_true by lra; reflexivity).
  cbn [num_neg]. rewrite !gamepad_scale_Fin. cbn [num_neg]. f_equal.
  rewrite Rabs_Ropp. unfold Rltb.
  destruct (Rlt_dec (- x) 0), (Rlt_dec x 0); try ring; try lra.
  assert (x = 0) as -> by lra. rewrite Rabs_R0. ring.
Qed.

Lemma pow4_bound (t : R) : 0 <= t <= 1 -> 0 <= t ^ 4 <= t.
Proof.
  intros [H0 H1]. replace (t ^ 4) with ((t * t) * (t * t)) by ring.
  assert (0 <= t * t <= t) by nra. nra.
Qed.

Lemma gamepad_scale_range (x : R) :
  -1 <= x <= 1 ->
  exists y : R,
    _applyNonlinearScaleToGamepadAxis (Fin x) = Fin y /\
    Rabs y <= 0.5 * Rabs x /\ Rabs y <= 0.5 /\
    (0 <= x -> 0 <= y) /\ (x <= 0 -> y <= 0).
Proof.
  intros Hx. rewrite gamepad_scale_Fin. eexists. split; [reflexivity |].
  assert (Ha : 0 <= Rabs x <= 1) by (split; [apply Rabs_pos | apply Rabs_le; lra]).
  pose proof (pow4_bound (Rabs x) Ha) as Hp.
  unfold Rltb. destruct (Rlt_dec x 0).
  - rewrite Rabs_Ropp, (Rabs_pos_eq (Rabs x ^ 4 * 0.5)) by lra.
    repeat split; lra.
  - rewrite (Rabs_pos_eq (Rabs x ^ 4 * 0.5)) by lra.
    repeat split; try lra. intros Hle. assert (x = 0) as -> by lra.
    rewrite Rabs_R0. lra.
Qed.

(** X17: on the range [[-1, 1]] of an axis the scaled value keeps the sign
    of the input and is at most half of it in magnitude. *)
Theorem gamepad_scale_bounded (x : R) :
  -1 <= x <= 1 ->
  exists y : R,
    _applyNonlinearScaleToGamepadAxis (Fin x) = Fin y /\
    Rabs y <= 0.5 * Rabs x /\ Rabs y <= 0.5 /\
    (0 <= x -> 0 <= y) /\ (x <= 0 -> y <= 0).
Proof. apply gamepad_scale_range. Qed.

Lemma gamepad_scale_bounded_witness :
  -1 <= 0.5 <= 1 /\
  exists y : R,
    _applyNonlinearScaleToGamepadAxis (Fin 0.5) = Fin y /\ Rabs y <= 0.5 * Rabs 0.5.
Proof.
  assert (H : -1 <= 0.5 <= 1) by lra.
  split; [exact H |].
  destruct (gamepad_scale_bounded 0.5 H) as (y & Hy & Hb & _).
  exists y. split; assumption.
Defined.

Lemma pow4_monotone (s t : R) : 0 <= s <= t -> s ^ 4 <= t ^ 4.
Proof.
  intros [H0 H1]. replace (s ^ 4) with ((s * s) * (s * s)) by ring.
  replace (t ^ 4) with ((t * t) * (t * t)) by ring.
  assert (0 <= s * s <= t * t) by nra. nra.
Qed.

(** X18: the axis scaling is monotone: a larger deflection never gives a
    smaller command. *)
Theorem gamepad_scale_monotone (x x' : R) :
  x <= x' ->
  (_applyNonlinearScaleToGamepadAxis (Fin x) <=
   _applyNonlinearScaleToGamepadAxis (Fin x'))%js = true.
Proof.
  intros Hle. rewrite !gamepad_scale_Fin.
  assert (Hgoal : forall p q : R, p <= q -> (Fin p <= Fin q)%js = true).
  { intros p q Hpq. unfold num_le, num_lt, num_eq, Rltb, Reqb.
    destruct (Rlt_dec p q), (Req_dec_T p q); try reflexivity. lra. }
  apply Hgoal. unfold Rltb.
  pose proof (Rabs_pos x) as Hax. pose proof (Rabs_pos x') as Hax'.
  pose proof (pow4_bound) as _.
  assert (Hp : forall t, 0 <= t -> 0 <= t ^ 4).
  { intros t Ht. replace (t ^ 4) with ((t * t) * (t * t)) by ring. nra. }
  pose proof (Hp _ Hax) as Hpx. pose proof (Hp _ Hax') as Hpx'.
  destruct (Rlt_dec x 0), (Rlt_dec x' 0); try lra.
  - assert (Hm : Rabs x' ^ 4 <= Rabs x ^ 4).
    { apply pow4_monotone. rewrite !Rabs_left by lra. lra. }
    lra.
  - assert (Hm : Rabs x ^ 4 <= Rabs x' ^ 4).
    { apply pow4_monotone. rewrite !Rabs_pos_eq by lra. lra. }
    lra.
Qed.

Lemma gamepad_scale_monotone_witness :
  -0.5 <= 0.2 /\
  (_applyNonlinearScaleToGamepadAxis (Fin (-0.5)) <=
   _applyNonlinearScaleToGamepadAxis (Fin 0.2))%js = true.
Proof.
  assert (H : -0.5 <= 0.2) by lra.
  split; [exact H |]. exact (gamepad_scale_monotone (-0.5) 0.2 H).
Defined.

(** ** Keyboard and gamepad input *)

Ltac key_case code k :=
  destruct (String.eqb_spec code k) as [-> | ?];
  [ cbn [fst snd]; split; [split; [intros _ | reflexivity] | discriminate];
    repeat (apply list_elem_of_here || apply list_elem_of_further) | ].

(** X19: a key is handled exactly when its code is one of the six the
    handler knows; any other key leaves the component as it was. *)
Theorem key_handled_iff (this : MoabVisualizer) (code : string) :
  (snd (_handleKeyDown this code) = true <-> code ∈ handled_codes) /\
  (snd (_handleKeyDown this code) = false -> fst (_handleKeyDown this code) = this).
Proof.
  unfold _handleKeyDown, handled_codes.
  key_case code "ArrowLeft"%string. key_case code "ArrowRight"%string.
  key_case code "ArrowUp"%string. key_case code "ArrowDown"%string.
  key_case code "BracketLeft"%string. key_case code "BracketRight"%string.
  cbn [fst snd]. split; [| reflexivity]. split; [discriminate |].
  intros Hin. exfalso.
  repeat (apply elem_of_cons in Hin as [-> | Hin]; [congruence |]).
  now apply elem_of_nil in Hin.
Qed.

Lemma keyboard_ok_length (kb : list (option number)) : keyboard_ok kb -> length kb = 3%nat.
Proof. intros (x & y & z & -> & _). reflexivity. Qed.

Lemma handleKeyDown_keeps_ok (this : MoabVisualizer) (code : string) :
  keyboard_ok (_keyboardInput this) ->
  keyboard_ok (_keyboardInput (fst (_handleKeyDown this code))).
Proof.
  intros (x & y & z & Hkb & Hx & Hy & Hz).
  unfold _handleKeyDown, set_keyboardInput, array_set. rewrite Hkb.
  repeat (destruct (String.eqb code _);
          [cbn; eexists _, _, _; split; [reflexivity |];
           repeat split; solve [assumption | lra] |]).
  cbn. rewrite Hkb. exists x, y, z. auto.
Qed.

Lemma clear_ok (this : MoabVisualizer) :
  keyboard_ok (_keyboardInput (_clearKeyboardInputs this)).
Proof. exists 0, 0, 0. cbn. repeat split; lra. Qed.

Lemma send_clears (this : MoabVisualizer) (gamepads : list (option Gamepad)) :
  fst (_sendActionFromInput this gamepads) = _clearKeyboardInputs this.
Proof. unfold _sendActionFromInput. now destruct (gamepadAction this gamepads). Qed.

Lemma input_step_keeps_ok (this : MoabVisualizer) (ev : InputEvent) :
  keyboard_ok (_keyboardInput this) ->
  keyboard_ok (_keyboardInput (input_step this ev)).
Proof.
  intros Hok. destruct ev as [code | i | i | gamepads]; cbn [input_step].
  - now apply handleKeyDown_keeps_ok.
  - exact Hok.
  - unfold _handleGamepadDisconnected.
    destruct (_activeGamepadIndex this); [destruct (Nat.eqb i n) |]; exact Hok.
  - rewrite send_clears. apply clear_ok.
Qed.

Lemma input_run_ok (events : list InputEvent) :
  keyboard_ok (_keyboardInput (input_run events)).
Proof.
  unfold input_run.
  assert (Hgen : forall this, keyboard_ok (_keyboardInput this) ->
                              keyboard_ok (_keyboardInput (fold_left input_step events this))).
  { induction events as [| ev events IH]; intros this Hok; cbn [fold_left].
    - exact Hok.
    - apply IH. now apply input_step_keeps_ok. }
  apply Hgen. exists 0, 0, 0. cbn. repeat split; lra.
Qed.

(** X20: whatever the sequence of key presses, gamepad events and sent
    actions, the keyboard input stays an array of three numbers, the two
    axis slots among -0.2, 0, 0.2 and the height slot among -1, 0, 1. *)
Theorem keyboard_input_invariant (events : list InputEvent) :
  keyboard_ok (_keyboardInput (input_run events)).
Proof. apply input_run_ok. Qed.

(** X21: sending an action uses up the key presses: the keyboard input is
    back to zeros and the active gamepad is kept, so an action sent next
    without a usable gamepad is all zeros. *)
Theorem send_consumes_keys
    (this : MoabVisualizer) (gamepads gamepads' : list (option Gamepad)) :
  let this' := fst (_sendActionFromInput this gamepads) in
  _keyboardInput this' = [Some (Fin 0); Some (Fin 0); Some (Fin 0)] /\
  _activeGamepadIndex this' = _activeGamepadIndex this /\
  (gamepadAction this' gamepads' = None ->
   snd (_sendActionFromInput this' gamepads') =
     {| input_roll := Some (Fin 0); input_pitch := Some (Fin 0);
        input_height_z := Some (Fin 0) |}).
Proof.
  intros this'. unfold this'. rewrite send_clears.
  split; [reflexivity |]. split; [reflexivity |].
  intros Hnone. unfold _sendActionFromInput. now rewrite Hnone.
Qed.

(** X22: without an active gamepad, with the active gamepad not reported,
    or with fewer than two axes, the action is the keyboard input alone. *)
Theorem keyboard_only_action (this : MoabVisualizer) (gamepads : list (option Gamepad)) :
  (_activeGamepadIndex this = None \/
   (exists active, _activeGamepadIndex this = Some active /\
                   mjoin (gamepads !! active) = None) \/
   (exists active gamepad,
      _activeGamepadIndex this = Some active /\
      mjoin (gamepads !! active) = Some gamepad /\ (length (axes gamepad) < 2)%nat)) ->
  snd (_sendActionFromInput this gamepads) =
    {| input_roll := array_get (_keyboardInput this) 0;
       input_pitch := array_get (_keyboardInput this) 1;
       input_height_z := array_get (_keyboardInput this) 2 |}.
Proof.
  intros H. unfold _sendActionFromInput.
  assert (Hnone : gamepadAction this gamepads = None).
  { unfold gamepadAction.
    destruct H as [-> | [(active & -> & ->) | (active & gamepad & -> & -> & Hlen)]];
      try reflexivity.
    destruct (axes gamepad) as [| a0 [| a1 rest]]; try reflexivity.
    cbn in Hlen. lia. }
  now rewrite Hnone.
Qed.

Lemma keyboard_only_action_witness :
  let this := fst (_handleKeyDown newMoabVisualizer "ArrowRight") in
  _activeGamepadIndex this = None /\
  snd (_sendActionFromInput this [Some (mkGamepad 0 [Fin 1; Fin 1])]) =
    {| input_roll := Some (Fin 0.2); input_pitch := Some (Fin 0);
       input_height_z := Some (Fin 0) |}.
Proof.
  intros this. split; [reflexivity |].
  exact (keyboard_only_action this [Some (mkGamepad 0 [Fin 1; Fin 1])]
           (or_introl eq_refl)).
Defined.

(** X23: with a usable gamepad whose axes lie in [[-1, 1]], in any
    reachable state of the component, roll and pitch of the action are
    numbers within 0.7 of zero (half the scaled axis plus one key step) and
    the height command is within 2. *)
Theorem gamepad_action_bounded
    (events : list InputEvent) (gamepads : list (option Gamepad))
    (active : nat) (gamepad : Gamepad) (x0 x1 : R) (rest : list number) :
  let this := input_run events in
  _activeGamepadIndex this = Some active ->
  mjoin (gamepads !! active) = Some gamepad ->
  axes gamepad = Fin x0 :: Fin x1 :: rest ->
  -1 <= x0 <= 1 -> -1 <= x1 <= 1 ->
  (forall a2 x3 more, rest = a2 :: x3 :: more -> exists t, x3 = Fin t /\ -1 <= t <= 1) ->
  exists r p z : R,
    snd (_sendActionFromInput this gamepads) =
      {| input_roll := Some (Fin r); input_pitch := Some (Fin p);
         input_height_z := Some (Fin z) |} /\
    -0.7 <= r <= 0.7 /\ -0.7 <= p <= 0.7 /\ -2 <= z <= 2.
Proof.
  intros this Hactive Hpad Haxes Hx0 Hx1 Hrest.
  destruct (input_run_ok events) as (kx & ky & kz & Hkb & Hkx & Hky & Hkz).
  fold this in Hkb.
  destruct (gamepad_scale_range x0 Hx0) as (y0 & Hy0 & _ & Hb0 & _).
  destruct (gamepad_scale_range x1 Hx1) as (y1 & Hy1 & _ & Hb1 & _).
  unfold _sendActionFromInput, gamepadAction.
  rewrite Hactive, Hpad, Haxes, Hkb, Hy0, Hy1. cbn [snd array_get add_undefined].
  assert (Hz : exists z, (match rest with
                          | _ :: axis3 :: _ => (- axis3)%js
                          | _ => Fin 0
                          end) = Fin z /\ -1 <= z <= 1).
  { destruct rest as [| a2 [| x3 more]].
    - exists 0. split; [reflexivity | lra].
    - exists 0. split; [reflexivity | lra].
    - destruct (Hrest a2 x3 more eq_refl) as (t & -> & Ht).
      exists (- t). split; [reflexivity | lra]. }
  destruct Hz as (z & -> & Hz).
  cbn. eexists _, _, _. split; [reflexivity |].
  pose proof (Rle_abs y0) as Hp0. pose proof (Rle_abs (- y0)) as Hn0.
  pose proof (Rle_abs y1) as Hp1. pose proof (Rle_abs (- y1)) as Hn1.
  rewrite Rabs_Ropp in Hn0, Hn1.
  repeat split; lra.
Qed.

Lemma gamepad_action_bounded_witness :
  let events := [GamepadConnected 0; KeyDown "ArrowLeft"] in
  let gamepads := [Some (mkGamepad 0 [Fin 0.5; Fin (-1)])] in
  _activeGamepadIndex (input_run events) = Some 0%nat /\
  exists r p z : R,
    snd (_sendActionFromInput (input_run events) gamepads) =
      {| input_roll := Some (Fin r); input_pitch := Some (Fin p);
         input_height_z := Some (Fin z) |} /\
    -0.7 <= r <= 0.7 /\ -0.7 <= p <= 0.7 /\ -2 <= z <= 2.
Proof.
  intros events gamepads. split; [reflexivity |].
  apply (gamepad_action_bounded events gamepads 0 (mkGamepad 0 [Fin 0.5; Fin (-1)])
           0.5 (-1) []); try reflexivity; try lra.
  intros a2 x3 more H. discriminate H.
Defined.

(** Disconnecting a gamepad other than the active one changes nothing;
    disconnecting the active one leaves no usable gamepad. *)
Lemma gamepad_disconnect (this : MoabVisualizer) (active gamepadIndex : nat) :
  _activeGamepadIndex this = Some active ->
  (gamepadIndex <> active -> _handleGamepadDisconnected this gamepadIndex = this) /\
  (forall gamepads,
     gamepadAction (_handleGamepadDisconnected this active) gamepads = None).
Proof.
  intros Hactive. unfold _handleGamepadDisconnected. rewrite Hactive. split.
  - intros Hne. apply Nat.eqb_neq in Hne. now rewrite Hne.
  - intros gamepads. now rewrite Nat.eqb_refl.
Qed.

(** ** The model state built from a message *)

(** Every field of the model state, as [_receiveMessage] fills it. *)
Lemma receive_all (state : gmap string json) (s : ModelState) :
  _receiveMessage state = Some s ->
  Forall (fun '(key, d, x) =>
            number_of (nullish (state !! key) (JNumber d)) = Some x)
         (plain_defaults s) /\
  Forall (fun '(current, legacy, d, x) =>
            number_of (nullish (legacy_alias state current legacy) (JNumber d)) = Some x)
         (legacy_defaults s) /\
  Forall (fun '(key, x) => optional_number_of (state !! key) = Some x)
         (optional_fields s) /\
  number_of (nullish (state !! "ball_z"%string)
               (JNumber (PlateOriginToSurfaceOffset + DefaultPlateZ + ballRadius s)%js))
  = Some (ballPosZ s) /\
  terminal s = toBoolean (state !! "terminal"%string).
Proof.
  intros H. receive_inv H.
  unfold plain_defaults, legacy_defaults, optional_fields.
  cbn [timeDelta ballRadius ballPosX ballPosY ballPosZ ballVelX ballVelY ballVelZ
       ballOrientX ballOrientY ballOrientZ ballOrientW estimatedPosX estimatedPosY
       estimatedRadius estimatedVelX estimatedVelY targetPosX targetPosY obstaclePosX
       obstaclePosY obstacleRadius platePosX platePosY platePosZ plateNorX plateNorY
       plateNorZ pitch roll terminal reward].
  repeat split; repeat (apply Forall_cons; split; [assumption || reflexivity |]);
    try apply Forall_nil; try exact I; try assumption; reflexivity.
Qed.

Lemma number_of_default (v : option json) (d x : number) :
  number_of (nullish v (JNumber d)) = Some x ->
  ((v = None \/ v = Some JNull) /\ x = d) \/ v = Some (JNumber x).
Proof.
  destruct v as [[| b | y | str | items | members] |]; cbn; intros H;
    try discriminate; injection H as <-; auto.
Qed.

(** X24: a field read under one name takes its default when the key is
    absent or [null], and otherwise the number under the key, unchanged. *)
Theorem plain_field_default (state : gmap string json) (s : ModelState) :
  _receiveMessage state = Some s ->
  forall key d x, (key, d, x) ∈ plain_defaults s ->
    (state !! key = None \/ state !! key = Some JNull -> x = d) /\
    (forall y, state !! key = Some (JNumber y) -> x = y).
Proof.
  intros Hs key d x Hin.
  destruct (receive_all state s Hs) as (Hplain & _).
  rewrite Forall_forall in Hplain. specialize (Hplain _ Hin). cbn in Hplain.
  split.
  - intros [H | H]; rewrite H in Hplain; cbn in Hplain; congruence.
  - intros y H. rewrite H in Hplain. cbn in Hplain. congruence.
Qed.

Lemma plain_field_default_witness :
  let state : gmap string json :=
    <[ "ball_x" := JNumber (Fin 0.01) ]> (<[ "ball_y" := JNull ]> ∅) in
  let s := state_after initialState state in
  _receiveMessage state = Some s /\ ballPosX s = Fin 0.01 /\ ballPosY s = Fin 0.0.
Proof.
  intros state s.
  assert (Hs : _receiveMessage state = Some s) by reflexivity.
  split; [exact Hs |]. split.
  - refine (proj2 (plain_field_default state s Hs "ball_x"%string (Fin 0.0) (ballPosX s) _)
              (Fin 0.01) eq_refl).
    repeat (apply list_elem_of_here || apply list_elem_of_further).
  - refine (proj1 (plain_field_default state s Hs "ball_y"%string (Fin 0.0) (ballPosY s) _)
              (or_intror eq_refl)).
    repeat (apply list_elem_of_here || apply list_elem_of_further).
Defined.

(** X25: a [null] under the current name is not [undefined]: it keeps the
    legacy name from being read, and the field takes its default; so it does
    when neither name gives a value. *)
Theorem null_blocks_legacy_alias (state : gmap string json) (s : ModelState) :
  _receiveMessage state = Some s ->
  forall current legacy d x, (current, legacy, d, x) ∈ legacy_defaults s ->
    (state !! current = Some JNull -> x = d) /\
    (state !! current = None ->
     state !! legacy = None \/ state !! legacy = Some JNull -> x = d).
Proof.
  intros Hs current legacy d x Hin.
  destruct (receive_all state s Hs) as (_ & Hlegacy & _).
  rewrite Forall_forall in Hlegacy. specialize (Hlegacy _ Hin). cbn in Hlegacy.
  unfold legacy_alias in Hlegacy. split.
  - intros H. rewrite H in Hlegacy. cbn [isUndefined nullish number_of] in Hlegacy.
    congruence.
  - intros H [H' | H']; rewrite H in Hlegacy; cbn [isUndefined] in Hlegacy;
      rewrite H' in Hlegacy; cbn [nullish number_of] in Hlegacy;
      now injection Hlegacy as <-.
Qed.

Lemma null_blocks_legacy_alias_witness :
  let state : gmap string json :=
    <[ "roll" := JNull ]> (<[ "tilt_x" := JNumber (Fin 0.5) ]> ∅) in
  let s := state_after initialState state in
  _receiveMessage state = Some s /\ roll s = Fin 0.0.
Proof.
  intros state s.
  assert (Hs : _receiveMessage state = Some s) by reflexivity.
  split; [exact Hs |].
  refine (proj1 (null_blocks_legacy_alias state s Hs
                   "roll"%string "tilt_x"%string (Fin 0.0) (roll s) _) eq_refl).
  apply list_elem_of_here.
Defined.

(** X26: without a [ball_z] the ball is put on the plate surface: its
    height is the surface offset plus the default plate height plus the
    radius the same message resolved to. *)
Theorem ball_rests_on_plate (state : gmap string json) (s : ModelState) :
  _receiveMessage state = Some s ->
  state !! "ball_z"%string = None \/ state !! "ball_z"%string = Some JNull ->
  ballPosZ s = (PlateOriginToSurfaceOffset + DefaultPlateZ + ballRadius s)%js.
Proof.
  intros Hs Hz. destruct (receive_all state s Hs) as (_ & _ & _ & Hball & _).
  destruct Hz as [Hz | Hz]; rewrite Hz in Hball; cbn [nullish number_of] in Hball;
    now injection Hball as <-.
Qed.

Lemma ball_rests_on_plate_witness :
  let state : gmap string json := <[ "ball_radius" := JNumber (Fin 0.03) ]> ∅ in
  let s := state_after initialState state in
  _receiveMessage state = Some s /\
  ballPosZ s = (PlateOriginToSurfaceOffset + DefaultPlateZ + Fin 0.03)%js.
Proof.
  intros state s.
  assert (Hs : _receiveMessage state = Some s) by reflexivity.
  split; [exact Hs |].
  exact (ball_rests_on_plate state s Hs (or_introl eq_refl)).
Defined.

Lemma parsed_alias (state : gmap string json) (current legacy : string) :
  parsed state -> legacy_alias state current legacy <> Some (JNumber NaN).
Proof.
  intros Hp. unfold legacy_alias.
  destruct (state !! current) eqn:H; cbn; [rewrite <- H |]; apply Hp.
Qed.

Lemma add_not_NaN (r : R) (x : number) : x <> NaN -> (Fin r + x)%js <> NaN.
Proof. destruct x; cbn; congruence. Qed.

Lemma nan_free_field (v : option json) (d x : number) :
  v <> Some (JNumber NaN) -> d <> NaN ->
  number_of (nullish v (JNumber d)) = Some x -> x <> NaN.
Proof.
  intros Hv Hd H. destruct (number_of_default v d x H) as [[_ ->] | ->]; congruence.
Qed.

Lemma nan_free_optional (v : option json) (x : option number) :
  v <> Some (JNumber NaN) -> optional_number_of v = Some x -> x <> Some NaN.
Proof.
  destruct v as [[| b | y | str | items | members] |]; cbn; intros Hv H;
    try discriminate; injection H as <-; congruence.
Qed.

Lemma parsed_state_nan_free (state : gmap string json) (s : ModelState) :
  parsed state -> _receiveMessage state = Some s -> nan_free s.
Proof.
  intros Hp Hs.
  destruct (receive_all state s Hs) as (Hplain & Hlegacy & Hopt & Hball & _).
  unfold plain_defaults in Hplain. unfold legacy_defaults in Hlegacy.
  unfold optional_fields in Hopt.
  repeat match goal with
         | H : Forall _ (_ :: _) |- _ =>
             let H1 := fresh "F" in apply Forall_cons in H as [H1 H]; cbn beta iota in H1
         end.
  repeat match goal with
         | H : number_of (nullish (legacy_alias _ _ _) _) = Some _ |- _ =>
             apply nan_free_field in H; [| now apply parsed_alias | discriminate]
         | H : number_of (nullish (state !! _) (JNumber (Fin _))) = Some _ |- _ =>
             apply nan_free_field in H; [| apply Hp | discriminate]
         | H : number_of (nullish (state !! _) (JNumber DefaultBallRadius)) = Some _ |- _ =>
             apply nan_free_field in H; [| apply Hp | discriminate]
         | H : optional_number_of (state !! _) = Some _ |- _ =>
             apply nan_free_optional in H; [| apply Hp]
         end.
  assert (HballZ : ballPosZ s <> NaN).
  { apply nan_free_field in Hball; [assumption | apply Hp |].
    unfold PlateOriginToSurfaceOffset, DefaultPlateZ. cbn [num_add].
    now apply add_not_NaN. }
  unfold nan_free. split; repeat (apply Forall_cons; split; [assumption |]);
    apply Forall_nil; exact I.
Qed.

(** X27: a parsed message never puts a NaN into the model state. *)
Theorem receive_nan_free (state : gmap string json) (s : ModelState) :
  parsed state -> _receiveMessage state = Some s -> nan_free s.
Proof. apply parsed_state_nan_free. Qed.

Lemma receive_nan_free_witness :
  let state : gmap string json :=
    <[ "ball_radius" := JNumber (Fin 0.03) ]> (<[ "estimated_x" := JNumber (Fin 0) ]> ∅) in
  let s := state_after initialState state in
  parsed state /\ _receiveMessage state = Some s /\ nan_free s.
Proof.
  intros state s.
  assert (Hparsed : parsed state)
    by (repeat (apply parsed_insert; [discriminate |]); apply parsed_empty).
  assert (Hs : _receiveMessage state = Some s) by reflexivity.
  split; [exact Hparsed |]. split; [exact Hs |].
  exact (receive_nan_free state s Hparsed Hs).
Defined.

(** X29: a message without an estimate hides the ring, and one without an
    estimated velocity hides the arrow, whatever its other fields are. *)
Theorem missing_estimate_hides
    (EPS : number) (this : MoabRenderer) (state : gmap string json) (s : ModelState) :
  _receiveMessage state = Some s ->
  let scene := _render3DScene EPS this s in
  (state !! "estimated_x"%string = None \/ state !! "estimated_y"%string = None \/
   state !! "estimated_radius"%string = None ->
   visible (_estimatedPos scene) = false) /\
  (state !! "estimated_vel_x"%string = None \/ state !! "estimated_vel_y"%string = None ->
   visible (arrow (_estimatedVel scene)) = false).
Proof.
  intros Hs scene.
  destruct (receive_all state s Hs) as (_ & _ & Hopt & _).
  unfold optional_fields in Hopt.
  repeat match goal with
         | H : Forall _ (_ :: _) |- _ =>
             let H1 := fresh "F" in apply Forall_cons in H as [H1 H]; cbn beta iota in H1
         end.
  unfold scene, _render3DScene. cbn [_estimatedPos _estimatedVel]. split.
  - intros [H | [H | H]]; rewrite H in *; cbn in *;
      repeat match goal with
             | F : Some None = Some _ |- _ => injection F as <-
             end;
      destruct (estimatedPosX s), (estimatedPosY s), (estimatedRadius s);
      reflexivity.
  - intros [H | H]; rewrite H in *; cbn in *;
      repeat match goal with
             | F : Some None = Some _ |- _ => injection F as <-
             end;
      destruct (estimatedVelX s), (estimatedVelY s); reflexivity.
Qed.

Lemma missing_estimate_hides_witness :
  let state : gmap string json := <[ "estimated_y" := JNumber (Fin 0.01) ]> ∅ in
  let s := state_after initialState state in
  _receiveMessage state = Some s /\
  visible (_estimatedPos (_render3DScene (Fin 0.000001) mountedRenderer s)) = false.
Proof.
  intros state s.
  assert (Hs : _receiveMessage state = Some s) by reflexivity.
  split; [exact Hs |].
  exact (proj1 (missing_estimate_hides (Fin 0.000001) mountedRenderer state s Hs)
           (or_introl eq_refl)).
Defined.

(** ** No NaN in the rigid poses *)

Lemma add_Fin_defined (x : number) (r : R) : x <> NaN -> (x + Fin r)%js <> NaN.
Proof. destruct x; cbn; congruence. Qed.

Lemma negate_defined (x : number) : x <> NaN -> (x * Fin (-1))%js <> NaN.
Proof.
  destruct x; cbn; try congruence; intros _;
    rewrite Reqb_false by lra; unfold infinity; now destruct (Rltb _ _).
Qed.

Lemma nan_free_rigid_poses
    (EPS : number) (this : MoabRenderer) (s : ModelState) :
  nan_free s ->
  vector_finite (_plateOrig this) -> vector_finite (_plateSurfaceOrig this) ->
  let scene := _render3DScene EPS this s in
  vector_defined (position (_ball scene)) /\
  vector_defined (scale (_ball scene)) /\
  Quaternion.defined (quaternion (_ball scene)) /\
  vector_defined (position (_target scene)) /\
  vector_defined (position (_obstacle scene)) /\
  vector_defined (scale (_obstacle scene)) /\
  (forall plate, _plate scene = Some plate -> vector_defined (position plate)).
Proof.
  intros [Hnum _] (ox & oy & oz & Horig) (sx & sy & sz & Hsurf) scene.
  repeat match goal with
         | H : Forall _ (_ :: _) |- _ =>
             let H1 := fresh "F" in apply Forall_cons in H as [H1 H]
         end.
  unfold scene, _render3DScene, platePos_of, ballRot_of.
  cbn [_ball _target _obstacle _plate]. rewrite Horig, Hsurf.
  unfold vector_defined, Quaternion.defined, Quaternion.invert, Quaternion.conjugate,
    Vector3.add.
  cbn [position scale quaternion set_position set_scale set_visible
       setRotationFromQuaternion set_quaternion
       Vector3.x Vector3.y Vector3.z Quaternion.x Quaternion.y Quaternion.z Quaternion.w].
  repeat match goal with |- _ /\ _ => split end;
    try assumption; try (now apply add_Fin_defined);
    try (now apply negate_defined); try discriminate.
  destruct (_plate this); intros plate [= <-]; cbn;
    repeat split; now apply add_Fin_defined.
Qed.

(** X30: after a parsed message, with finite plate origins, no NaN reaches
    the pose of the ball, the target, the obstacle or the plate. *)
Theorem parsed_message_rigid_poses
    (EPS : number) (this : MoabRenderer) (state : gmap string json) (s : ModelState) :
  parsed state -> _receiveMessage state = Some s ->
  vector_finite (_plateOrig this) -> vector_finite (_plateSurfaceOrig this) ->
  let scene := _render3DScene EPS this s in
  vector_defined (position (_ball scene)) /\
  vector_defined (scale (_ball scene)) /\
  Quaternion.defined (quaternion (_ball scene)) /\
  vector_defined (position (_target scene)) /\
  vector_defined (position (_obstacle scene)) /\
  vector_defined (scale (_obstacle scene)) /\
  (forall plate, _plate scene = Some plate -> vector_defined (position plate)).
Proof.
  intros Hp Hs. apply nan_free_rigid_poses. now apply (parsed_state_nan_free state).
Qed.

Lemma parsed_message_rigid_poses_witness :
  let state : gmap string json := <[ "ball_x" := JNumber (Fin 0.01) ]> ∅ in
  let s := state_after initialState state in
  parsed state /\ _receiveMessage state = Some s /\
  vector_finite (_plateOrig loadedRenderer) /\
  vector_finite (_plateSurfaceOrig loadedRenderer) /\
  vector_defined (position (_ball (_render3DScene (Fin 0.000001) loadedRenderer s))).
Proof.
  intros state s.
  assert (Hparsed : parsed state)
    by (repeat (apply parsed_insert; [discriminate |]); apply parsed_empty).
  assert (Hs : _receiveMessage state = Some s) by reflexivity.
  assert (Ho : vector_finite (_plateOrig loadedRenderer))
    by (eexists _, _, _; reflexivity).
  assert (Hz : vector_finite (_plateSurfaceOrig loadedRenderer))
    by (eexists _, _, _; reflexivity).
  split; [exact Hparsed |]. split; [exact Hs |]. split; [exact Ho |]. split; [exact Hz |].
  exact (proj1 (parsed_message_rigid_poses (Fin 0.000001) loadedRenderer state s
                  Hparsed Hs Ho Hz)).
Defined.
